(** * QueryVault client: navigation and synchronisation core

  A shallow embedding of the stateful parts of the React client
  (document viewer, stream viewer, split surface, chat transcript,
  bookmark store, citation navigation) together with the properties
  the design document states about them.

  React state cells are record fields; an event handler is a function
  from the state before the event to the state after the handler and
  the effects it triggers have run.  Clock readings ([Date.now()]) and
  the outcome of the answer service are inputs of the handlers. *)

From Stdlib Require Import ZArith List Bool Lia.
From Stdlib Require Import Floats.PrimFloat.
From stdpp Require Import base decidable list gmap strings pretty.

Local Open Scope Z_scope.

(** ** Resizable split surface ([SplitView]) *)

Module SplitView.

(** JavaScript numbers are IEEE-754 doubles, so are [float]s here. *)
Record Props := {
  defaultLeftWidth : float;
  minWidth : float;
  maxWidth : float
}.

Record State := {
  leftWidth : float;
  isDragging : bool
}.

(** [getBoundingClientRect()] of the container, when the ref is set. *)
Record Rect := { left : float; width : float }.

Inductive Event :=
| MouseDown
| MouseMove (clientX : float) (container : option Rect)
| MouseUp.

Definition mount (p : Props) : State :=
  {| leftWidth := defaultLeftWidth p; isDragging := false |}.

(** [newWidth >= minWidth && newWidth <= maxWidth] *)
Definition in_bounds (p : Props) (w : float) : bool :=
  (PrimFloat.leb (minWidth p) w && PrimFloat.leb w (maxWidth p))%bool.

Definition newWidth (clientX : float) (r : Rect) : float :=
  ((clientX - left r) / width r * 100)%float.

Definition handleMouseMove (p : Props) (clientX : float)
    (container : option Rect) (s : State) : State :=
  if negb (isDragging s) then s else
  match container with
  | None => s
  | Some r =>
      let w := newWidth clientX r in
      if in_bounds p w
      then {| leftWidth := w; isDragging := isDragging s |}
      else s
  end.

Definition handleMouseUp (s : State) : State :=
  {| leftWidth := leftWidth s; isDragging := false |}.

Definition handleMouseDown (s : State) : State :=
  {| leftWidth := leftWidth s; isDragging := true |}.

(** The document listeners exist only while [isDragging] holds. *)
Definition step (p : Props) (s : State) (e : Event) : State :=
  match e with
  | MouseDown => handleMouseDown s
  | MouseMove x c => if isDragging s then handleMouseMove p x c s else s
  | MouseUp => if isDragging s then handleMouseUp s else s
  end.

Definition run (p : Props) (es : list Event) (s : State) : State :=
  fold_left (step p) es s.

Definition rightWidth (s : State) : float := (100 - leftWidth s)%float.

End SplitView.

(** ** Abrupt completion

    A handler either completes normally with the next state or throws
    (a [TypeError] when a method is called on [null]). *)

Inductive completion (A : Type) : Type :=
| Normal (a : A)
| Throws (e : string).
Arguments Normal {A} a.
Arguments Throws {A} e.

#[global] Instance completion_ret : MRet completion := fun A a => Normal a.

#[global] Instance completion_bind : MBind completion := fun A B k c =>
match c with
| Normal a => k a
| Throws e => Throws e
end.

(** Calling a method on a reference that may be [null]. *)
Definition invoke {R S : Type} (r : option R) (method : S -> S) (obj : S) : completion S :=
match r with
| Some _ => Normal (method obj)
| None => Throws "TypeError: Cannot read properties of null"
end.

(** ** Data carried by the transcript *)

(** A retrieved passage as returned by [POST /query]. *)
Record Source := {
  type : string;
  page : Z;
  filename : string;
  timestamp : Z;
  video_url : string;
  text : string;
  score : float
}.

Inductive Role := user | assistant.

(** [question] and [sources] are absent on user messages. *)
Record Message := {
  id : Z;
  role : Role;
  content : string;
  question : option string;
  sources : option (list Source)
}.

(** Constants of [utils/constants], which the handlers compare against. *)
Record Constants := {
  SPLIT_VIEW_MODES_PDF : string;
  SPLIT_VIEW_MODES_YOUTUBE : string;
  SOURCE_TYPES_PDF : string;
  SOURCE_TYPES_YOUTUBE : string
}.

(** ** Document viewer ([PDFViewer]) *)

Module PDFViewer.

Record State := {
  numPages : option Z;
  pageNumber : Z;
  loading : bool;
  error : option string
}.

(** The viewer with the parent cell bound to its [initialPage] prop and
    to its [onPageChange] callback ([currentPage] of [SplitViewChat]). *)
Record Mounted := {
  initialPage : Z;
  view : State
}.

Definition setPageNumber (n : Z) (v : State) : State :=
{| numPages := numPages v; pageNumber := n;
   loading := loading v; error := error v |}.

Definition mount (initialPage : Z) : Mounted :=
{| initialPage := initialPage;
   view := {| numPages := None; pageNumber := initialPage;
              loading := true; error := None |} |}.

(** Truthiness of a number. *)
Definition truthy (n : Z) : bool := negb (n =? 0).

(** [null] in a numeric comparison or in [Math.min] counts as [0]. *)
Definition toNumber (n : option Z) : Z :=
match n with Some k => k | None => 0 end.

(** One commit of the component.  [ip0] and [pn0] are the values of
    [initialPage] and [pageNumber] at the previous commit: an effect runs
    when one of its dependencies differs from them.  Both effects see the
    values of this render; their state updates show in the next one.

    - effect on [initialPage]:
      [if (initialPage && initialPage !== pageNumber) setPageNumber(initialPage)]
    - effect on [pageNumber, onPageChange]: [onPageChange(pageNumber)],
      where [onPageChange] is the parent's [setCurrentPage]. *)
Definition commit (ip0 pn0 : Z) (m : Mounted) : Mounted :=
let ip := initialPage m in
let pn := pageNumber (view m) in
let fire_initialPage := negb (ip =? ip0) in
let fire_pageNumber := negb (pn =? pn0) in
{| initialPage := if fire_pageNumber then pn else ip;
   view := if (fire_initialPage && truthy ip && negb (ip =? pn))%bool
           then setPageNumber ip (view m) else view m |}.

(** Commits follow each other until a render changes neither cell. *)
Fixpoint settle (fuel : nat) (ip0 pn0 : Z) (m : Mounted) : Mounted :=
match fuel with
| O => m
| S fuel' =>
    if ((initialPage m =? ip0) && (pageNumber (view m) =? pn0))%bool
    then m
    else settle fuel' (initialPage m) (pageNumber (view m)) (commit ip0 pn0 m)
end.

Definition fuel : nat := 4.

(** The parent calls [setCurrentPage(n)]: the command surface a citation
    click goes through. *)
Definition setPage (n : Z) (m : Mounted) : Mounted :=
settle fuel (initialPage m) (pageNumber (view m))
  {| initialPage := n; view := view m |}.

(** A state update of the viewer itself, followed by its commits. *)
Definition update (f : State -> State) (m : Mounted) : Mounted :=
settle fuel (initialPage m) (pageNumber (view m))
  {| initialPage := initialPage m; view := f (view m) |}.

Definition onDocumentLoadSuccess (n : Z) (v : State) : State :=
{| numPages := Some n; pageNumber := pageNumber v;
   loading := false; error := None |}.

Definition onDocumentLoadError (v : State) : State :=
{| numPages := numPages v; pageNumber := pageNumber v; loading := false;
   error := Some "Failed to load PDF. Please try again."%string |}.

Definition goToPrevPage (v : State) : State :=
setPageNumber (Z.max 1 (pageNumber v - 1)) v.

Definition goToNextPage (v : State) : State :=
setPageNumber (Z.min (toNumber (numPages v)) (pageNumber v + 1)) v.

(** [onChange] of the page box. *)
Definition onPageInput (page : Z) (v : State) : State :=
if ((1 <=? page) && (page <=? toNumber (numPages v)))%bool
then setPageNumber page v else v.

(** The parent cell and the viewer agree, or the parent holds a falsy
    page the viewer refused. *)
Definition synced (m : Mounted) : Prop :=
initialPage m = pageNumber (view m) \/ initialPage m = 0.

(** A sequence of page requests. *)
Definition setPages (ns : list Z) (m : Mounted) : Mounted :=
fold_left (fun m n => setPage n m) ns m.

(** The last request the viewer accepts, [d] if there is none. *)
Definition latest (d : Z) (ns : list Z) : Z :=
fold_left (fun acc n => if truthy n then n else acc) ns d.

End PDFViewer.

(** ** Stream viewer ([YouTubePlayer]) *)

Module YouTubePlayer.

Inductive PlayerState := UNSTARTED | ENDED | PLAYING | PAUSED | BUFFERING | CUED.

(** The [YT.Player] object behind the iframe, as far as the client
    drives it: [seekTo] moves the position, [playVideo] and [pauseVideo]
    set the play state. *)
Record Player := {
  position : Z;
  playerState : PlayerState;
  muted : bool
}.

Definition yt_seekTo (seconds : Z) (y : Player) : Player :=
{| position := seconds; playerState := playerState y; muted := muted y |}.

Definition yt_playVideo (y : Player) : Player :=
{| position := position y; playerState := PLAYING; muted := muted y |}.

Definition yt_pauseVideo (y : Player) : Player :=
{| position := position y; playerState := PAUSED; muted := muted y |}.

Definition yt_setMuted (b : bool) (y : Player) : Player :=
{| position := position y; playerState := playerState y; muted := b |}.

(** A reference to that one object ([event.target]). *)
Inductive Ref := event_target.

(** React state of the component; [instance] is the shared player
    object every reference points to. *)
Record State := {
  player : option Ref;
  isPlaying : bool;
  isMuted : bool;
  instance : Player
}.

Definition on_instance (f : Player -> Player) (s : State) : State :=
{| player := player s; isPlaying := isPlaying s; isMuted := isMuted s;
   instance := f (instance s) |}.

Definition mount (initialTimestamp : Z) : State :=
{| player := None; isPlaying := false; isMuted := false;
   instance := {| position := initialTimestamp; playerState := UNSTARTED;
                  muted := false |} |}.

(** [seekTo] as created by a render in which the state cell [player]
    held [captured]. *)
Definition seekTo (captured : option Ref) (timestamp : Z) (s : State) : completion State :=
if negb (bool_decide (is_Some captured)) then mret s else
s1 ← invoke captured (on_instance (yt_seekTo timestamp)) s;
invoke captured (on_instance yt_playVideo) s1.

Definition togglePlay (s : State) : completion State :=
if negb (bool_decide (is_Some (player s))) then mret s else
if isPlaying s
then invoke (player s) (on_instance yt_pauseVideo) s
else invoke (player s) (on_instance yt_playVideo) s.

(** [onReady]: [setPlayer(event.target)], then a seek to a positive
    initial timestamp. *)
Definition onReady (initialTimestamp : Z) (s : State) : State :=
let s1 := {| player := Some event_target; isPlaying := isPlaying s;
             isMuted := isMuted s; instance := instance s |} in
if 0 <? initialTimestamp
then on_instance (yt_seekTo initialTimestamp) s1
else s1.

(** [onStateChange]. *)
Definition onStateChange (s : State) : State :=
{| player := player s; isMuted := isMuted s; instance := instance s;
   isPlaying := match playerState (instance s) with PLAYING => true | _ => false end |}.

End YouTubePlayer.

(** ** Session screen ([SplitViewChat]) and source cards *)

Module SplitViewChat.

(** What the stream viewer hands to [onTimeUpdate]: the object
    [{ seekTo }], whose closure holds the [player] of its render. *)
Record SeekHandle := { captured_player : option YouTubePlayer.Ref }.

(** [pdf] and [youtube] are the mounted viewer, if any. *)
Record Session := {
  mode : string;
  currentPage : Z;
  currentTimestamp : Z;
  youtubePlayerRef : option SeekHandle;
  pdf : option PDFViewer.State;
  youtube : option YouTubePlayer.State
}.

Definition with_youtube (y : option YouTubePlayer.State) (s : Session) : Session :=
{| mode := mode s; currentPage := currentPage s;
   currentTimestamp := currentTimestamp s;
   youtubePlayerRef := youtubePlayerRef s; pdf := pdf s; youtube := y |}.

Definition with_ref (h : option SeekHandle) (s : Session) : Session :=
{| mode := mode s; currentPage := currentPage s;
   currentTimestamp := currentTimestamp s;
   youtubePlayerRef := h; pdf := pdf s; youtube := youtube s |}.

Definition with_page (c : Z) (v : option PDFViewer.State) (s : Session) : Session :=
{| mode := mode s; currentPage := c;
   currentTimestamp := currentTimestamp s;
   youtubePlayerRef := youtubePlayerRef s; pdf := v; youtube := youtube s |}.

(** [setCurrentPage(n)] and the commits of the document viewer, when
    one is mounted. *)
Definition setCurrentPage (n : Z) (s : Session) : Session :=
match pdf s with
| Some v =>
    let m := PDFViewer.setPage n
               {| PDFViewer.initialPage := currentPage s; PDFViewer.view := v |} in
    with_page (PDFViewer.initialPage m) (Some (PDFViewer.view m)) s
| None => with_page n None s
end.

(** A state update inside the document viewer ([onLoadSuccess], paging). *)
Definition inViewer (f : PDFViewer.State -> PDFViewer.State) (s : Session) : Session :=
match pdf s with
| Some v =>
    let m := PDFViewer.update f
               {| PDFViewer.initialPage := currentPage s; PDFViewer.view := v |} in
    with_page (PDFViewer.initialPage m) (Some (PDFViewer.view m)) s
| None => s
end.

Section WithConstants.
Context (K : Constants).

(** The screen as first rendered for a router state [{file, videoId, mode}]. *)
Definition mount (mode : string) (file videoId : bool) : Session :=
{| mode := mode; currentPage := 1; currentTimestamp := 0;
   youtubePlayerRef := None;
   pdf := if (String.eqb mode (SPLIT_VIEW_MODES_PDF K) && file)%bool
          then Some (PDFViewer.view (PDFViewer.mount 1)) else None;
   youtube := if (String.eqb mode (SPLIT_VIEW_MODES_PDF K) && file)%bool then None
              else if (String.eqb mode (SPLIT_VIEW_MODES_YOUTUBE K) && videoId)%bool
              then Some (YouTubePlayer.mount 0) else None |}.

(** [youtubePlayerRef.current.seekTo(t)]: the closure runs on the
    mounted stream viewer. *)
Definition call_seekTo (h : SeekHandle) (t : Z) (s : Session) : completion Session :=
match youtube s with
| Some y =>
    y' ← YouTubePlayer.seekTo (captured_player h) t y;
    mret (with_youtube (Some y') s)
| None => mret s
end.

Definition handleSourceNavigate (source : Source) (s : Session) : completion Session :=
if (String.eqb (type source) "pdf" && String.eqb (mode s) (SPLIT_VIEW_MODES_PDF K))%bool
then mret (setCurrentPage (page source) s)
else if (String.eqb (type source) "youtube"
         && String.eqb (mode s) (SPLIT_VIEW_MODES_YOUTUBE K))%bool
then match youtubePlayerRef s with
     | Some h => call_seekTo h (timestamp source) s
     | None => mret s
     end
else mret s.

(** [SourceCard.handleClick], with [onNavigate] bound to
    [handleSourceNavigate]: the card forwards a fresh object with the
    fields of its variant. *)
Definition forwarded_pdf (source : Source) : Source :=
{| type := "pdf"; page := page source; filename := filename source;
   timestamp := 0; video_url := ""; text := ""; score := 0%float |}.

Definition forwarded_youtube (source : Source) : Source :=
{| type := "youtube"; page := 0; filename := "";
   timestamp := timestamp source; video_url := video_url source;
   text := ""; score := 0%float |}.

Definition handleClick (source : Source) (s : Session) : completion Session :=
if String.eqb (type source) (SOURCE_TYPES_PDF K)
then handleSourceNavigate (forwarded_pdf source) s
else if String.eqb (type source) (SOURCE_TYPES_YOUTUBE K)
then handleSourceNavigate (forwarded_youtube source) s
else mret s.

(** The player reports ready: [onReady] runs, the viewer renders with
    [player] set and its effect hands [{ seekTo }] to the parent. *)
Definition playerReady (s : Session) : Session :=
match youtube s with
| Some y =>
    let y' := YouTubePlayer.onReady (currentTimestamp s) y in
    with_ref (Some {| captured_player := YouTubePlayer.player y' |})
      (with_youtube (Some y') s)
| None => s
end.

Inductive Event :=
| SourceClick (source : Source)
| PlayerReady
| DocumentLoaded (numPages : Z)
| NextPage
| PrevPage
| PageInput (page : Z).

Definition step (s : Session) (e : Event) : completion Session :=
match e with
| SourceClick source => handleClick source s
| PlayerReady => mret (playerReady s)
| DocumentLoaded n => mret (inViewer (PDFViewer.onDocumentLoadSuccess n) s)
| NextPage => mret (inViewer PDFViewer.goToNextPage s)
| PrevPage => mret (inViewer PDFViewer.goToPrevPage s)
| PageInput n => mret (inViewer (PDFViewer.onPageInput n) s)
end.

Fixpoint run (es : list Event) (s : Session) : completion Session :=
match es with
| [] => mret s
| e :: es' => s' ← step s e; run es' s'
end.

End WithConstants.

(** A citation whose variant is not the one the session shows. *)
Definition mismatch (K : Constants) (source : Source) (s : Session) : Prop :=
(type source = "pdf"%string /\ mode s = SPLIT_VIEW_MODES_YOUTUBE K) \/
(type source = "youtube"%string /\ mode s = SPLIT_VIEW_MODES_PDF K).

(** The same for the card the user clicks. *)
Definition card_mismatch (K : Constants) (source : Source) (s : Session) : Prop :=
(type source = SOURCE_TYPES_PDF K /\ mode s = SPLIT_VIEW_MODES_YOUTUBE K) \/
(type source = SOURCE_TYPES_YOUTUBE K /\ mode s = SPLIT_VIEW_MODES_PDF K).

(** The player has reported ready and the parent holds its handle. *)
Definition ready (s : Session) : Prop :=
exists y, youtube s = Some y /\
  YouTubePlayer.player y = Some YouTubePlayer.event_target /\
  youtubePlayerRef s = Some {| captured_player := Some YouTubePlayer.event_target |}.

End SplitViewChat.

(** ** Transcript ([ChatContainer]) *)

Module ChatContainer.

Record State := {
  messages : list Message;
  loading : bool
}.

Definition mount : State := {| messages := []; loading := false |}.

(** How the awaited [queryDocuments] call ends: the response, whose
    [sources] may be missing, or a rejection with [error.message]. *)
Inductive Outcome :=
| Resolved (answer : string) (response_sources : option (list Source))
| Rejected (error_message : string).

Definition userMessage (now : Z) (question : string) : Message :=
{| id := now; role := user; content := question;
   question := None; sources := None |}.

(** [sources: response.sources || []] *)
Definition botMessage (now : Z) (q answer : string)
    (response_sources : option (list Source)) : Message :=
{| id := now + 1; role := assistant; content := answer;
   question := Some q;
   sources := Some (match response_sources with Some l => l | None => [] end) |}.

Definition errorMessage (now : Z) (error_message : string) : Message :=
{| id := now + 1; role := assistant;
   content := "Sorry, I encountered an error: " +:+ error_message
                +:+ ". Please try again.";
   question := None; sources := Some [] |}.

(** [handleSend] up to its [await]; [now] is the reading of [Date.now()]. *)
Definition handleSend_begin (now : Z) (question : string) (s : State) : State :=
{| messages := messages s ++ [userMessage now question]; loading := true |}.

(** [handleSend] from the point the awaited call has settled. *)
Definition handleSend_resume (now : Z) (question : string) (o : Outcome)
    (s : State) : State :=
{| messages := messages s ++
     [match o with
      | Resolved answer srcs => botMessage now question answer srcs
      | Rejected e => errorMessage now e
      end];
   loading := false |}.

(** One ask: the clock readings at submission and at settlement, the
    question and the way the service call ended. *)
Record Ask := {
  sentAt : Z;
  settledAt : Z;
  asked : string;
  outcome : Outcome
}.

Definition handleSend (a : Ask) (s : State) : State :=
handleSend_resume (settledAt a) (asked a) (outcome a)
  (handleSend_begin (sentAt a) (asked a) s).

Definition asks (l : list Ask) (s : State) : State :=
fold_left (fun s a => handleSend a s) l s.

Definition ids (s : State) : list Z := map id (messages s).

(** The two messages one ask appends. *)
Definition reply (a : Ask) : Message :=
match outcome a with
| Resolved answer srcs => botMessage (settledAt a) (asked a) answer srcs
| Rejected e => errorMessage (settledAt a) e
end.

Definition exchange (a : Ask) : list Message :=
[userMessage (sentAt a) (asked a); reply a].

(** Strictly increasing ids. *)
Fixpoint increasing (l : list Z) : Prop :=
match l with
| [] => True
| x :: l' => Forall (fun y => x < y) l' /\ increasing l'
end.

(** Stable sort of messages by [id]. *)
Fixpoint insert_by_id (m : Message) (l : list Message) : list Message :=
match l with
| [] => [m]
| x :: l' => if id m <? id x then m :: l else x :: insert_by_id m l'
end.

Definition sort_by_id (l : list Message) : list Message :=
fold_right insert_by_id [] l.

(** The clock never runs backwards, and an ask is submitted more than a
    millisecond after the previous one has settled. *)
Fixpoint spaced (after : Z) (l : list Ask) : Prop :=
match l with
| [] => True
| a :: l' => after < sentAt a /\ sentAt a <= settledAt a /\ spaced (settledAt a + 1) l'
end.

End ChatContainer.

(** ** Bookmark store ([BookmarkContext]) and bookmark button *)

Module BookmarkContext.

(** [{ ...message, bookmarkedAt: Date.now() }] *)
Record Bookmark := {
  snapshot : Message;
  bookmarkedAt : Z
}.

Definition has_id (messageId : Z) (b : Bookmark) : bool :=
id (snapshot b) =? messageId.

Definition addBookmark (now : Z) (message : Message) (prev : list Bookmark)
    : list Bookmark :=
if existsb (has_id (id message)) prev then prev
else prev ++ [{| snapshot := message; bookmarkedAt := now |}].

Definition removeBookmark (messageId : Z) (prev : list Bookmark) : list Bookmark :=
List.filter (fun b => negb (has_id messageId b)) prev.

Definition isBookmarked (messageId : Z) (bookmarks : list Bookmark) : bool :=
existsb (has_id messageId) bookmarks.

Definition clearBookmarks (prev : list Bookmark) : list Bookmark := [].

(** The ids held by the store, in order. *)
Definition bookmark_ids (st : list Bookmark) : list Z :=
map (fun b => id (snapshot b)) st.

(** A sequence of [addBookmark] calls, each with its clock reading. *)
Definition addAll (calls : list (Z * Message)) (prev : list Bookmark) : list Bookmark :=
fold_left (fun st c => addBookmark (fst c) (snd c) st) calls prev.

(** The bookmark stored under an id, and the first call made for it. *)
Definition stored (messageId : Z) (bookmarks : list Bookmark) : option Bookmark :=
List.find (has_id messageId) bookmarks.

Definition first_call (messageId : Z) (calls : list (Z * Message)) : option Bookmark :=
match List.find (fun c => id (snd c) =? messageId) calls with
| Some c => Some {| snapshot := snd c; bookmarkedAt := fst c |}
| None => None
end.

Definition added_ids (calls : list (Z * Message)) : gset Z :=
list_to_set (map (fun c => id (snd c)) calls).

(** [BookmarkButton.handleClick]; [bookmarked] is
    [isBookmarked(message.id)] of the render the click lands on. *)
Definition handleClick (now : Z) (message : Message) (bookmarks : list Bookmark)
    : list Bookmark :=
let bookmarked := isBookmarked (id message) bookmarks in
if bookmarked then removeBookmark (id message) bookmarks
else addBookmark now message bookmarks.

End BookmarkContext.

(** ** [Math.min] and [Math.max] on two numbers *)

Module JSMath.

(** [NaN] if an argument is [NaN]; [-0] counts as smaller than [+0]. *)
Definition min (a b : float) : float :=
if (is_nan a || is_nan b)%bool then nan
else if (a <? b)%float then a
else if (b <? a)%float then b
else if get_sign a then a else b.

Definition max (a b : float) : float :=
if (is_nan a || is_nan b)%bool then nan
else if (a <? b)%float then b
else if (b <? a)%float then a
else if get_sign a then b else a.

End JSMath.

(** ** Toolbar of the document viewer: zoom, fullscreen, paging buttons *)

Module PDFToolbar.

Record State := {
  scale : float;
  isFullscreen : bool
}.

Definition mount : State := {| scale := 1; isFullscreen := false |}.

Definition zoomIn (t : State) : State :=
{| scale := JSMath.min 2.5 (scale t + 0.25); isFullscreen := isFullscreen t |}.

Definition zoomOut (t : State) : State :=
{| scale := JSMath.max 0.5 (scale t - 0.25); isFullscreen := isFullscreen t |}.

Definition resetZoom (t : State) : State :=
{| scale := 1; isFullscreen := isFullscreen t |}.

Definition toggleFullscreen (t : State) : State :=
{| scale := scale t; isFullscreen := negb (isFullscreen t) |}.

(** [disabled={scale >= 2.5}] and [disabled={scale <= 0.5}] *)
Definition zoomInDisabled (t : State) : bool := (2.5 <=? scale t)%float.
Definition zoomOutDisabled (t : State) : bool := (scale t <=? 0.5)%float.

Inductive Event := ZoomIn | ZoomOut | ResetZoom | ToggleFullscreen.

(** A disabled button delivers no click. *)
Definition step (t : State) (e : Event) : State :=
match e with
| ZoomIn => if zoomInDisabled t then t else zoomIn t
| ZoomOut => if zoomOutDisabled t then t else zoomOut t
| ResetZoom => resetZoom t
| ToggleFullscreen => toggleFullscreen t
end.

Definition run (es : list Event) (t : State) : State := fold_left step es t.

(** The zoom factors the buttons can reach. *)
Definition zoom_levels : list float :=
[0.5; 0.75; 1; 1.25; 1.5; 1.75; 2; 2.25; 2.5]%float.

(** [disabled={pageNumber <= 1}] and [disabled={pageNumber >= numPages}] *)
Definition prevDisabled (v : PDFViewer.State) : bool :=
PDFViewer.pageNumber v <=? 1.

Definition nextDisabled (v : PDFViewer.State) : bool :=
PDFViewer.toNumber (PDFViewer.numPages v) <=? PDFViewer.pageNumber v.

End PDFToolbar.

(** ** Controls of the stream viewer *)

Module StreamControls.
Import YouTubePlayer.

(** [toggleMute]: [unMute()] or [mute()] on the player, then
    [setIsMuted(!isMuted)]. *)
Definition toggleMute (s : State) : completion State :=
if negb (bool_decide (is_Some (player s))) then mret s else
s1 ← (if isMuted s
      then invoke (player s) (on_instance (yt_setMuted false)) s
      else invoke (player s) (on_instance (yt_setMuted true)) s);
mret {| player := player s1; isPlaying := isPlaying s1;
        isMuted := negb (isMuted s); instance := instance s1 |}.

(** What can happen to a mounted viewer: the player reports ready, a
    control is clicked, the parent seeks through the handle of the
    current render, the player reports a change of its play state. *)
Inductive Event :=
| Ready (initialTimestamp : Z)
| TogglePlay
| ToggleMute
| Seek (timestamp : Z)
| StateChange.

Definition step (s : State) (e : Event) : completion State :=
match e with
| Ready t => mret (onReady t s)
| TogglePlay => togglePlay s
| ToggleMute => toggleMute s
| Seek t => seekTo (player s) t s
| StateChange => mret (onStateChange s)
end.

Fixpoint run (es : list Event) (s : State) : completion State :=
match es with
| [] => mret s
| e :: es' => s' ← step s e; run es' s'
end.

Definition playing (s : State) : bool :=
match playerState (instance s) with PLAYING => true | _ => false end.

Definition is_ready (e : Event) : bool :=
match e with Ready _ => true | _ => false end.

End StreamControls.

(** ** Predicates on sessions and their events *)

Module SessionTrace.
Import SplitViewChat.

(** The page the parent holds is the page of the mounted document
    viewer, or a falsy page the viewer refused. *)
Definition page_mirrored (s : Session) : Prop :=
match pdf s with
| Some v => currentPage s = PDFViewer.pageNumber v \/ currentPage s = 0
| None => True
end.

Definition is_player_ready (e : Event) : bool :=
match e with PlayerReady => true | _ => false end.

(** The events that come from the document viewer's own paging controls. *)
Definition is_paging (e : Event) : bool :=
match e with NextPage | PrevPage | PageInput _ => true | _ => false end.

(** A document session: the mode is the document mode, a document
    viewer is mounted and the parent mirrors its page. *)
Definition document_shown (K : Constants) (s : Session) : Prop :=
mode s = SPLIT_VIEW_MODES_PDF K /\ (exists v, pdf s = Some v) /\ page_mirrored s.

Definition stream_mounted (s : Session) : bool :=
match youtube s with Some _ => true | None => false end.

End SessionTrace.

(** ** Question box ([ChatInput]) driving the transcript *)

Module ChatInput.

Section WithTrim.
(** [String.prototype.trim]. *)
Context (trim : string -> string).

(** The box and the chat container it submits to; [awaiting] holds the
    questions whose [handleSend] is suspended at its [await]. *)
Record State := {
  chat : ChatContainer.State;
  input : string;
  awaiting : list string
}.

Definition mount : State :=
{| chat := ChatContainer.mount; input := ""; awaiting := [] |}.

(** A string is truthy unless it is empty. *)
Definition truthy (x : string) : bool :=
match x with EmptyString => false | String _ _ => true end.

Definition handleChange (value : string) (s : State) : State :=
{| chat := chat s; input := value; awaiting := awaiting s |}.

(** [if (input.trim() && !loading) { onSend(input.trim()); setInput('') }],
    with [onSend] the container's [handleSend], which runs up to its
    [await]. *)
Definition handleSubmit (now : Z) (s : State) : State :=
if (truthy (trim (input s)) && negb (ChatContainer.loading (chat s)))%bool
then {| chat := ChatContainer.handleSend_begin now (trim (input s)) (chat s);
        input := "";
        awaiting := awaiting s ++ [trim (input s)] |}
else s.

Definition handleKeyDown (key : string) (shiftKey : bool) (now : Z) (s : State) : State :=
if (String.eqb key "Enter" && negb shiftKey)%bool then handleSubmit now s else s.

(** The oldest pending service call settles and its [handleSend] resumes. *)
Definition settle (now : Z) (o : ChatContainer.Outcome) (s : State) : State :=
match awaiting s with
| q :: rest =>
    {| chat := ChatContainer.handleSend_resume now q o (chat s);
       input := input s; awaiting := rest |}
| [] => s
end.

Inductive Event :=
| Change (value : string)
| Submit (now : Z)
| KeyDown (key : string) (shiftKey : bool) (now : Z)
| Settled (now : Z) (o : ChatContainer.Outcome).

Definition step (s : State) (e : Event) : State :=
match e with
| Change value => handleChange value s
| Submit now => handleSubmit now s
| KeyDown key shiftKey now => handleKeyDown key shiftKey now s
| Settled now o => settle now o s
end.

Definition run (es : list Event) (s : State) : State := fold_left step es s.

(** A question as the box sends it: trimmed and not empty. *)
Definition sendable (q : string) : Prop :=
q <> ""%string /\ exists typed, q = trim typed.

(** The transcript is that of a sequence of complete asks, with at most
    one more ask begun. *)
Definition in_step (s : State) : Prop :=
exists done : list ChatContainer.Ask,
  Forall (fun a => sendable (ChatContainer.asked a)) done /\
  match awaiting s with
  | [] => chat s = ChatContainer.asks done ChatContainer.mount
  | q :: rest =>
      rest = [] /\ sendable q /\
      exists t, chat s =
        ChatContainer.handleSend_begin t q (ChatContainer.asks done ChatContainer.mount)
  end.

End WithTrim.

End ChatInput.

(** ** Bookmark navigation in the transcript ([scrollToMessage]) *)

Module TranscriptView.

(** [ringed] are the positions of the message elements that carry the
    highlight classes, [timers] the pending removals in the order they
    were set (all with the same delay), [scrolledTo] the element last
    scrolled into view. *)
Record State := {
  rendered : list Message;
  bookmarksPanelOpen : bool;
  ringed : gset nat;
  timers : list nat;
  scrolledTo : option nat
}.

Definition mount (messages : list Message) : State :=
{| rendered := messages; bookmarksPanelOpen := false; ringed := ∅;
   timers := []; scrolledTo := None |}.

(** The [id] attribute of a message element: [`message-${message.id}`],
    the id being an integer written in decimal. *)
Definition elementId (messageId : Z) : string := "message-" +:+ pretty messageId.

(** [document.getElementById]: the first element with that id. *)
Definition getElementById (elementid : string) (s : State) : option nat :=
fst <$> list_find (fun m => elementId (id m) = elementid) (rendered s).

Definition scrollToMessage (messageId : Z) (s : State) : State :=
match getElementById (elementId messageId) s with
| Some k =>
    {| rendered := rendered s; bookmarksPanelOpen := bookmarksPanelOpen s;
       ringed := {[ k ]} ∪ ringed s; timers := timers s ++ [k];
       scrolledTo := Some k |}
| None => s
end.

(** The oldest timer fires and removes the highlight classes. *)
Definition timeout (s : State) : State :=
match timers s with
| k :: rest =>
    {| rendered := rendered s; bookmarksPanelOpen := bookmarksPanelOpen s;
       ringed := ringed s ∖ {[ k ]}; timers := rest; scrolledTo := scrolledTo s |}
| [] => s
end.

Definition setPanel (b : bool) (s : State) : State :=
{| rendered := rendered s; bookmarksPanelOpen := b; ringed := ringed s;
   timers := timers s; scrolledTo := scrolledTo s |}.

(** The click on an entry of the bookmarks panel:
    [onNavigate(bookmark.id); onClose()].  A closed panel renders no
    entry. *)
Definition entryClick (b : BookmarkContext.Bookmark) (s : State) : State :=
if bookmarksPanelOpen s
then setPanel false (scrollToMessage (id (BookmarkContext.snapshot b)) s)
else s.

(** The transcript grows by a message. *)
Definition appended (m : Message) (s : State) : State :=
{| rendered := rendered s ++ [m]; bookmarksPanelOpen := bookmarksPanelOpen s;
   ringed := ringed s; timers := timers s; scrolledTo := scrolledTo s |}.

Inductive Event :=
| OpenPanel
| ClosePanel
| EntryClick (b : BookmarkContext.Bookmark)
| Timeout
| Appended (m : Message).

Definition step (s : State) (e : Event) : State :=
match e with
| OpenPanel => setPanel true s
| ClosePanel => setPanel false s
| EntryClick b => entryClick b s
| Timeout => timeout s
| Appended m => appended m s
end.

Definition run (es : list Event) (s : State) : State := fold_left step es s.

(** The position of the first message with a given id. *)
Definition first_with_id (messageId : Z) (l : list Message) : option nat :=
fst <$> list_find (fun m => id m = messageId) l.

(** Every highlighted element has a removal pending. *)
Definition timers_cover (s : State) : Prop :=
forall k, k ∈ ringed s -> k ∈ timers s.

End TranscriptView.

(** ** Sequences of operations on the bookmark store *)

Module BookmarkOps.
Import BookmarkContext.

Inductive Op :=
| Add (now : Z) (message : Message)
| Remove (messageId : Z)
| Clear
| Click (now : Z) (message : Message).

Definition apply (st : list Bookmark) (o : Op) : list Bookmark :=
match o with
| Add now m => addBookmark now m st
| Remove i => removeBookmark i st
| Clear => clearBookmarks st
| Click now m => handleClick now m st
end.

Definition run (ops : list Op) (st : list Bookmark) : list Bookmark :=
fold_left apply ops st.

End BookmarkOps.

(** ** Pointer events of the split surface *)

Module SplitViewTrace.

Definition is_move (e : SplitView.Event) : bool :=
match e with SplitView.MouseMove _ _ => true | _ => false end.

Definition is_down (e : SplitView.Event) : bool :=
match e with SplitView.MouseDown => true | _ => false end.

End SplitViewTrace.

(** ** Upload screen ([Upload]) *)

Module Upload.

Record File := { name : string; size : Z }.

(** What the upload endpoints answer with. *)
Record Response := {
  message : string;
  filename : string;
  video_id : string;
  video_title : string;
  total_chunks : Z
}.

(** The rejection of a call: [err.response?.data?.detail] and [err.message]. *)
Record Failure := { detail : option string; err_message : string }.

(** The object kept in [result]; [filename] is set by a document
    upload, [videoTitle] by a video upload. *)
Record Result := {
  success : bool;
  result_message : string;
  result_filename : option string;
  videoTitle : option string;
  chunks : Z
}.

(** The router state handed to the chat screen. *)
Record Target := {
  file : option File;
  videoId : option string;
  mode : string
}.

Inductive Request := PdfRequest (f : File) | YouTubeRequest (url : string).

(** [inflight] are the handlers suspended at their [await], oldest
    first, [scheduled] the navigations whose two-second timer is
    pending, [opened] the navigation made. *)
Record State := {
  activeTab : string;
  uploading : bool;
  progress : Z;
  result : option Result;
  error : option string;
  inflight : list Request;
  scheduled : list Target;
  opened : option Target
}.

Definition mount : State :=
{| activeTab := "pdf"; uploading := false; progress := 0; result := None;
   error := None; inflight := []; scheduled := []; opened := None |}.

Section WithConstants.
Context (trim : string -> string) (K : Constants) (MAX_PDF_SIZE_MB : Z).

Definition limit : Z := MAX_PDF_SIZE_MB * 1024 * 1024.

(** [handlePDFUpload] up to its [await]. *)
Definition handlePDFUpload (picked : option File) (s : State) : State :=
match picked with
| None => s
| Some f =>
    if limit <? size f
    then {| activeTab := activeTab s; uploading := uploading s;
            progress := progress s; result := result s;
            error := Some ("File too large. Maximum size is "
                           +:+ pretty MAX_PDF_SIZE_MB +:+ "MB");
            inflight := inflight s; scheduled := scheduled s; opened := opened s |}
    else {| activeTab := activeTab s; uploading := true;
            progress := progress s; result := None; error := None;
            inflight := inflight s ++ [PdfRequest f];
            scheduled := scheduled s; opened := opened s |}
end.

(** [handleYouTubeUpload] up to its [await]. *)
Definition handleYouTubeUpload (value : string) (s : State) : State :=
let url := trim value in
match url with
| EmptyString => s
| String _ _ =>
    {| activeTab := activeTab s; uploading := true;
       progress := progress s; result := None; error := None;
       inflight := inflight s ++ [YouTubeRequest url];
       scheduled := scheduled s; opened := opened s |}
end.

(** The progress callback of the document upload. *)
Definition onProgress (percent : Z) (s : State) : State :=
{| activeTab := activeTab s; uploading := uploading s; progress := percent;
   result := result s; error := error s; inflight := inflight s;
   scheduled := scheduled s; opened := opened s |}.

(** [err.response?.data?.detail || err.message] *)
Definition failure_text (e : Failure) : string :=
match detail e with
| Some (String c d) => String c d
| _ => err_message e
end.

(** The handler of the oldest call, from the point the call has settled. *)
Definition resolved (r : Response) (s : State) : State :=
match inflight s with
| PdfRequest f :: rest =>
    {| activeTab := activeTab s; uploading := false; progress := 0;
       result := Some {| success := true; result_message := message r;
                         result_filename := Some (filename r); videoTitle := None;
                         chunks := total_chunks r |};
       error := error s; inflight := rest;
       scheduled := scheduled s ++
         [{| file := Some f; videoId := None; mode := SPLIT_VIEW_MODES_PDF K |}];
       opened := opened s |}
| YouTubeRequest _ :: rest =>
    {| activeTab := activeTab s; uploading := false; progress := progress s;
       result := Some {| success := true; result_message := message r;
                         result_filename := None; videoTitle := Some (video_title r);
                         chunks := total_chunks r |};
       error := error s; inflight := rest;
       scheduled := scheduled s ++
         [{| file := None; videoId := Some (video_id r);
             mode := SPLIT_VIEW_MODES_YOUTUBE K |}];
       opened := opened s |}
| [] => s
end.

Definition rejected (e : Failure) (s : State) : State :=
match inflight s with
| PdfRequest _ :: rest =>
    {| activeTab := activeTab s; uploading := false; progress := 0;
       result := result s; error := Some (failure_text e); inflight := rest;
       scheduled := scheduled s; opened := opened s |}
| YouTubeRequest _ :: rest =>
    {| activeTab := activeTab s; uploading := false; progress := progress s;
       result := result s; error := Some (failure_text e); inflight := rest;
       scheduled := scheduled s; opened := opened s |}
| [] => s
end.

(** The oldest navigation timer fires. *)
Definition navigate (s : State) : State :=
match scheduled s with
| t :: rest =>
    {| activeTab := activeTab s; uploading := uploading s; progress := progress s;
       result := result s; error := error s; inflight := inflight s;
       scheduled := rest; opened := Some t |}
| [] => s
end.

Definition setActiveTab (tab : string) (s : State) : State :=
{| activeTab := tab; uploading := uploading s; progress := progress s;
   result := result s; error := error s; inflight := inflight s;
   scheduled := scheduled s; opened := opened s |}.

Inductive Event :=
| Tab (tab : string)
| FilePicked (picked : option File)
| UrlSubmitted (value : string)
| Progress (percent : Z)
| Resolved (r : Response)
| Rejected (e : Failure)
| TimerFired.

Definition is_pdf_request (r : Request) : bool :=
match r with PdfRequest _ => true | YouTubeRequest _ => false end.

(** The file input, the URL field and its button are disabled while
    [uploading]; progress is reported for a document upload in flight. *)
Definition step (s : State) (e : Event) : State :=
match e with
| Tab tab => setActiveTab tab s
| FilePicked picked => if uploading s then s else handlePDFUpload picked s
| UrlSubmitted value => if uploading s then s else handleYouTubeUpload value s
| Progress percent =>
    if existsb is_pdf_request (inflight s) then onProgress percent s else s
| Resolved r => resolved r s
| Rejected e => rejected e s
| TimerFired => navigate s
end.

Definition run (es : list Event) (s : State) : State := fold_left step es s.

(** A request or a navigation target the screen may produce: a file
    within the size limit in document mode, or a video in stream mode. *)
Definition request_ok (r : Request) : Prop :=
match r with
| PdfRequest f => size f <= limit
| YouTubeRequest url => url <> ""%string
end.

Definition target_ok (t : Target) : Prop :=
(exists f, file t = Some f /\ size f <= limit /\ videoId t = None /\
           mode t = SPLIT_VIEW_MODES_PDF K) \/
(exists v, file t = None /\ videoId t = Some v /\
           mode t = SPLIT_VIEW_MODES_YOUTUBE K).

Definition sound (s : State) : Prop :=
(length (inflight s) <= 1)%nat /\
(uploading s = true <-> inflight s <> []) /\
(progress s = 0 \/ exists f, inflight s = [PdfRequest f]) /\
Forall request_ok (inflight s) /\
Forall target_ok (scheduled s) /\
(forall t, opened s = Some t -> target_ok t).

(** The chat screen as it mounts for a router state. *)
Definition session_of (t : Target) : SplitViewChat.Session :=
SplitViewChat.mount K (mode t)
  (match file t with Some _ => true | None => false end)
  (match videoId t with Some (String _ _) => true | _ => false end).

End WithConstants.

End Upload.

(** ** Sessions and inputs of the worked scenarios *)

(** The constants with the values of the [type] tags of [POST /query]. *)
Definition constants : Constants :=
{| SPLIT_VIEW_MODES_PDF := "pdf"; SPLIT_VIEW_MODES_YOUTUBE := "youtube";
   SOURCE_TYPES_PDF := "pdf"; SOURCE_TYPES_YOUTUBE := "youtube" |}.

Definition pdf_citation (p : Z) : Source :=
{| type := "pdf"; page := p; filename := "a.pdf"; timestamp := 0;
   video_url := ""; text := "..."; score := 0.875%float |}.

Definition youtube_citation (t : Z) : Source :=
{| type := "youtube"; page := 0; filename := ""; timestamp := t;
   video_url := "https://youtu.be/X"; text := "..."; score := 0.75%float |}.

(** A document session whose document of [total] pages has loaded. *)
Definition document_session (K : Constants) (total : Z) : SplitViewChat.Session :=
SplitViewChat.inViewer (PDFViewer.onDocumentLoadSuccess total)
  (SplitViewChat.mount K (SPLIT_VIEW_MODES_PDF K) true false).

(** A stream session, before the player has reported ready. *)
Definition stream_session (K : Constants) : SplitViewChat.Session :=
SplitViewChat.mount K (SPLIT_VIEW_MODES_YOUTUBE K) false true.

(** The split surface as [SplitViewChat] configures it, and a drag with
    a move inside the bounds, one outside and one over a collapsed
    container. *)
Definition C9_props : SplitView.Props :=
{| SplitView.defaultLeftWidth := 50;
   SplitView.minWidth := 30;
   SplitView.maxWidth := 70 |}%float.

Definition C9_events : list SplitView.Event :=
[SplitView.MouseDown;
 SplitView.MouseMove 400 (Some {| SplitView.left := 0; SplitView.width := 1000 |});
 SplitView.MouseMove 900 (Some {| SplitView.left := 0; SplitView.width := 1000 |});
 SplitView.MouseMove 5 (Some {| SplitView.left := 0; SplitView.width := 0 |});
 SplitView.MouseUp]%float.

(** Two asks, the second submitted in the millisecond the first one
    settled and failing at once. *)
Definition rapid_asks : list ChatContainer.Ask :=
[ {| ChatContainer.sentAt := 1000; ChatContainer.settledAt := 1500;
     ChatContainer.asked := "What is RAG?";
     ChatContainer.outcome := ChatContainer.Resolved "Retrieval." None |};
  {| ChatContainer.sentAt := 1500; ChatContainer.settledAt := 1500;
     ChatContainer.asked := "And a vector?";
     ChatContainer.outcome := ChatContainer.Rejected "Network Error" |} ].

(** ** Properties of the split surface *)

Section SplitViewFacts.
Import SplitView.
Variable p : Props.

Lemma step_in_bounds s e :
  in_bounds p (leftWidth s) = true ->
  in_bounds p (leftWidth (step p s e)) = true.
Proof.
  intros Hs. destruct e as [|x c|]; simpl.
  - exact Hs.
  - destruct (isDragging s) eqn:Hd; [|exact Hs].
    unfold handleMouseMove. rewrite Hd. simpl.
    destruct c as [r|]; [|exact Hs].
    destruct (in_bounds p (newWidth x r)) eqn:Hw; simpl; assumption.
  - destruct (isDragging s); exact Hs.
Qed.

Lemma run_in_bounds es : forall s,
  in_bounds p (leftWidth s) = true ->
  in_bounds p (leftWidth (run p es s)) = true.
Proof.
  induction es as [|e es IH]; intros s Hs; simpl.
  - exact Hs.
  - apply IH. now apply step_in_bounds.
Qed.

(** C9: while DRAGGING a pointer move commits the computed width
    exactly when it lies in [minWidth, maxWidth] and otherwise keeps
    the previous width unchanged; hence, from a default width within
    the bounds, the left width stays within the bounds after every
    sequence of pointer events. *)
Theorem C9_drag_width_within_bounds :
  in_bounds p (defaultLeftWidth p) = true ->
  (forall s x r, isDragging s = true ->
      leftWidth (step p s (MouseMove x (Some r))) =
        if in_bounds p (newWidth x r) then newWidth x r else leftWidth s) /\
  (forall es, in_bounds p (leftWidth (run p es (mount p))) = true).
Proof.
  intros Hd. split.
  - intros s x r Hs. simpl. rewrite Hs. unfold handleMouseMove.
    rewrite Hs. simpl. now destruct (in_bounds p (newWidth x r)).
  - intros es. now apply run_in_bounds.
Qed.

End SplitViewFacts.

Lemma C9_witness :
SplitView.in_bounds C9_props (SplitView.defaultLeftWidth C9_props) = true /\
SplitView.in_bounds C9_props
  (SplitView.leftWidth
     (SplitView.run C9_props C9_events (SplitView.mount C9_props))) = true.
Proof.
split; [vm_compute; reflexivity|].
apply (proj2 (C9_drag_width_within_bounds C9_props eq_refl)).
Defined.

(** ** Properties of the document viewer *)

Section PDFViewerFacts.
Import PDFViewer.

Lemma mounted_eta m :
  {| initialPage := initialPage m; view := view m |} = m.
Proof. now destruct m. Qed.

(** The commits after [setCurrentPage(n)] come to rest after at most
    three rounds, whatever fuel is left: the parent cell is at [n] and
    the viewer at [n] unless [n] is falsy; a request equal to the parent
    cell renders nothing. *)
Lemma settle_setPage k n m :
  settle (3 + k) (initialPage m) (pageNumber (view m))
    {| initialPage := n; view := view m |} =
    if n =? initialPage m then m
    else {| initialPage := n;
            view := if truthy n then setPageNumber n (view m) else view m |}.
Proof.
  destruct m as [c v]. cbn [initialPage view].
  cbn [settle initialPage view Nat.add].
  rewrite Z.eqb_refl, andb_true_r.
  destruct (Z.eqb_spec n c) as [->|Hnc]; [reflexivity|].
  unfold commit. cbn [initialPage view].
  rewrite Z.eqb_refl. cbn [negb].
  destruct (Z.eqb_spec n c) as [|_]; [contradiction|]. cbn [negb andb].
  unfold truthy. destruct (Z.eqb_spec n 0) as [Hn0|Hn0]; cbn [negb andb].
  - rewrite !Z.eqb_refl. reflexivity.
  - destruct (Z.eqb_spec n (pageNumber v)) as [Hnp|Hnp]; cbn [negb].
    + rewrite !Z.eqb_refl. cbn [andb]. destruct v as [np pn ld er].
      cbn in Hnp. subst pn. reflexivity.
    + cbn [setPageNumber pageNumber]. rewrite Z.eqb_refl. cbn [andb].
      destruct (Z.eqb_spec n (pageNumber v)) as [|_]; [contradiction|].
      cbn [negb andb]. rewrite !Z.eqb_refl. reflexivity.
Qed.

Lemma setPage_settled n m :
  setPage n m =
    if n =? initialPage m then m
    else {| initialPage := n;
            view := if truthy n then setPageNumber n (view m) else view m |}.
Proof. exact (settle_setPage 1 n m). Qed.

(** More fuel changes nothing. *)
Lemma setPage_fuel_enough k n m :
  settle (3 + k) (initialPage m) (pageNumber (view m))
    {| initialPage := n; view := view m |} = setPage n m.
Proof. now rewrite settle_setPage, setPage_settled. Qed.

Lemma setPage_synced n m : synced m -> synced (setPage n m).
Proof.
  intros Hs. rewrite setPage_settled.
  destruct (Z.eqb_spec n (initialPage m)); [exact Hs|].
  unfold synced, truthy. cbn [initialPage view].
  destruct (Z.eqb_spec n 0); cbn [negb]; [now right | now left].
Qed.

Lemma setPage_pageNumber n m :
  synced m ->
  pageNumber (view (setPage n m)) = if truthy n then n else pageNumber (view m).
Proof.
  intros Hs. rewrite setPage_settled. unfold truthy.
  destruct (Z.eqb_spec n (initialPage m)) as [E|E].
  - destruct (Z.eqb_spec n 0) as [E0|E0]; cbn [negb]; [reflexivity|].
    destruct Hs as [Hs|Hs]; congruence.
  - cbn [view]. now destruct (n =? 0).
Qed.

Lemma setPage_keeps_load n m :
  numPages (view (setPage n m)) = numPages (view m) /\
  loading (view (setPage n m)) = loading (view m).
Proof.
  rewrite setPage_settled. destruct (n =? initialPage m); [easy|].
  cbn [view]. now destruct (truthy n).
Qed.

(** A request within the document is committed. *)
Lemma setPage_in_range n total m :
  synced m -> numPages (view m) = Some total -> 1 <= n <= total ->
  pageNumber (view (setPage n m)) = n.
Proof.
  intros Hs _ Hn. rewrite setPage_pageNumber by exact Hs.
  unfold truthy. destruct (Z.eqb_spec n 0); [lia|reflexivity].
Qed.

(** The page box, unlike [setPage], ignores a page outside the document. *)
Lemma onPageInput_out_of_range page total v :
  numPages v = Some total -> ~ (1 <= page <= total) ->
  onPageInput page v = v.
Proof.
  intros Hn Hp. unfold onPageInput. rewrite Hn. cbn [toNumber].
  destruct (Z.leb_spec 1 page); destruct (Z.leb_spec page total);
    cbn [andb]; try reflexivity; lia.
Qed.

Lemma setPages_synced ns : forall m, synced m -> synced (setPages ns m).
Proof.
  induction ns as [|n ns IH]; intros m Hs; [exact Hs|].
  apply IH, setPage_synced, Hs.
Qed.

Lemma setPages_pageNumber ns : forall m,
  synced m ->
  pageNumber (view (setPages ns m)) = latest (pageNumber (view m)) ns.
Proof.
  induction ns as [|n ns IH]; intros m Hs; [reflexivity|].
  cbn [setPages latest fold_left].
  change (fold_left (fun m0 n0 => setPage n0 m0) ns (setPage n m))
    with (setPages ns (setPage n m)).
  rewrite IH by now apply setPage_synced.
  now rewrite setPage_pageNumber.
Qed.

Lemma setPages_loading ns : forall m,
  loading (view (setPages ns m)) = loading (view m).
Proof.
  induction ns as [|n ns IH]; intros m; [reflexivity|].
  cbn [setPages fold_left].
  change (fold_left (fun m0 n0 => setPage n0 m0) ns (setPage n m))
    with (setPages ns (setPage n m)).
  rewrite IH. apply setPage_keeps_load.
Qed.

End PDFViewerFacts.

Lemma update_settled f m :
  PDFViewer.pageNumber (f (PDFViewer.view m)) = PDFViewer.pageNumber (PDFViewer.view m) ->
  PDFViewer.update f m =
    {| PDFViewer.initialPage := PDFViewer.initialPage m;
       PDFViewer.view := f (PDFViewer.view m) |}.
Proof.
  intros H. unfold PDFViewer.update, PDFViewer.fuel.
  cbn [PDFViewer.settle PDFViewer.initialPage PDFViewer.view].
  now rewrite H, !Z.eqb_refl.
Qed.

(** C4 (as the code has it): a page request issued while the document is
    still loading is applied at once as the current page, a request for
    a falsy page being ignored; so a newer request overwrites an older
    one, no request is held back, and load completion leaves the current
    page at the latest page requested. *)
Theorem C4_requests_while_loading_applied_at_once :
  forall (ns : list Z) (m : PDFViewer.Mounted) (total : Z),
    PDFViewer.synced m ->
    PDFViewer.loading (PDFViewer.view m) = true ->
    let m' := PDFViewer.setPages ns m in
    let wanted := PDFViewer.latest (PDFViewer.pageNumber (PDFViewer.view m)) ns in
    PDFViewer.loading (PDFViewer.view m') = true /\
    PDFViewer.pageNumber (PDFViewer.view m') = wanted /\
    (forall n, n <> 0 ->
       PDFViewer.pageNumber (PDFViewer.view (PDFViewer.setPage n m')) = n) /\
    PDFViewer.pageNumber (PDFViewer.view
      (PDFViewer.update (PDFViewer.onDocumentLoadSuccess total) m')) = wanted.
Proof.
  intros ns m total Hs Hl m' wanted. subst m' wanted.
  repeat split.
  - now rewrite setPages_loading.
  - now apply setPages_pageNumber.
  - intros n Hn. rewrite setPage_pageNumber by now apply setPages_synced.
    unfold PDFViewer.truthy. now destruct (Z.eqb_spec n 0).
  - rewrite update_settled by reflexivity.
    cbn [PDFViewer.view PDFViewer.onDocumentLoadSuccess PDFViewer.pageNumber].
    now apply setPages_pageNumber.
Qed.

Lemma C4_witness :
  PDFViewer.synced (PDFViewer.mount 1) /\
  PDFViewer.loading (PDFViewer.view (PDFViewer.mount 1)) = true /\
  PDFViewer.pageNumber (PDFViewer.view
    (PDFViewer.update (PDFViewer.onDocumentLoadSuccess 12)
       (PDFViewer.setPages [3; 7; 0; 5] (PDFViewer.mount 1)))) = 5.
Proof.
  split; [now left|]. split; [reflexivity|].
  apply (C4_requests_while_loading_applied_at_once [3; 7; 0; 5]
           (PDFViewer.mount 1) 12 (or_introl eq_refl) eq_refl).
Defined.

(** The claim C4 fails as stated: a request issued while the document
    is loading changes the current page before the load completes. *)
Lemma C4_request_takes_effect_before_load :
  PDFViewer.loading (PDFViewer.view (PDFViewer.mount 1)) = true /\
  PDFViewer.loading (PDFViewer.view (PDFViewer.setPage 3 (PDFViewer.mount 1))) = true /\
  PDFViewer.pageNumber (PDFViewer.view (PDFViewer.mount 1)) = 1 /\
  PDFViewer.pageNumber (PDFViewer.view (PDFViewer.setPage 3 (PDFViewer.mount 1))) = 3.
Proof. repeat split. Qed.

(** ** Properties of citation navigation *)

Section NavigationFacts.
Import SplitViewChat.
Context (K : Constants).

Lemma session_eta s :
  {| mode := mode s; currentPage := currentPage s;
     currentTimestamp := currentTimestamp s;
     youtubePlayerRef := youtubePlayerRef s; pdf := pdf s;
     youtube := youtube s |} = s.
Proof. now destruct s. Qed.

Lemma navigate_pdf source s :
  type source = "pdf"%string -> mode s = SPLIT_VIEW_MODES_PDF K ->
  handleSourceNavigate K source s = Normal (setCurrentPage (page source) s).
Proof.
  intros Ht Hm. unfold handleSourceNavigate.
  now rewrite Ht, Hm, !String.eqb_refl.
Qed.

Lemma navigate_youtube source s :
  type source = "youtube"%string -> mode s = SPLIT_VIEW_MODES_YOUTUBE K ->
  handleSourceNavigate K source s =
    match youtubePlayerRef s with
    | Some h => call_seekTo h (timestamp source) s
    | None => Normal s
    end.
Proof.
  intros Ht Hm. unfold handleSourceNavigate.
  now rewrite Ht, Hm, !String.eqb_refl.
Qed.

Lemma navigate_mismatch source s :
  SPLIT_VIEW_MODES_PDF K <> SPLIT_VIEW_MODES_YOUTUBE K ->
  mismatch K source s ->
  handleSourceNavigate K source s = Normal s.
Proof.
  intros Hne [[Ht Hm]|[Ht Hm]]; unfold handleSourceNavigate; rewrite Ht, Hm.
  - apply not_eq_sym, String.eqb_neq in Hne. rewrite Hne. reflexivity.
  - apply String.eqb_neq in Hne. rewrite Hne. reflexivity.
Qed.

End NavigationFacts.

Lemma click_before_ready K source s :
  SPLIT_VIEW_MODES_PDF K <> SPLIT_VIEW_MODES_YOUTUBE K ->
  SplitViewChat.mode s = SPLIT_VIEW_MODES_YOUTUBE K ->
  SplitViewChat.youtubePlayerRef s = None ->
  SplitViewChat.handleClick K source s = Normal s.
Proof.
  intros Hne Hm Hr. unfold SplitViewChat.handleClick.
  destruct (String.eqb (type source) (SOURCE_TYPES_PDF K)).
  - apply navigate_mismatch; [exact Hne|]. left. now split.
  - destruct (String.eqb (type source) (SOURCE_TYPES_YOUTUBE K)); [|reflexivity].
    rewrite navigate_youtube by easy. now rewrite Hr.
Qed.

Lemma clicks_before_ready K clicks s :
  SPLIT_VIEW_MODES_PDF K <> SPLIT_VIEW_MODES_YOUTUBE K ->
  SplitViewChat.mode s = SPLIT_VIEW_MODES_YOUTUBE K ->
  SplitViewChat.youtubePlayerRef s = None ->
  forall rest,
    SplitViewChat.run K (map SplitViewChat.SourceClick clicks ++ rest) s =
    SplitViewChat.run K rest s.
Proof.
  intros Hne Hm Hr rest. induction clicks as [|c clicks IH]; [reflexivity|].
  cbn [map app SplitViewChat.run SplitViewChat.step].
  rewrite click_before_ready by assumption. exact IH.
Qed.

Lemma playerReady_ready s y :
  SplitViewChat.youtube s = Some y ->
  SplitViewChat.ready (SplitViewChat.playerReady s).
Proof.
  intros Hy. unfold SplitViewChat.playerReady. rewrite Hy.
  exists (YouTubePlayer.onReady (SplitViewChat.currentTimestamp s) y).
  cbn. unfold YouTubePlayer.onReady.
  destruct (0 <? SplitViewChat.currentTimestamp s); cbn; repeat split.
Qed.

(** C1 (at the input the code gets wrong): in a document session whose
    5-page document has loaded and shows page 1, navigating to a
    citation of page 9 does not throw, and commits 9 as the current
    page of the viewer instead of leaving it at 1. *)
Theorem C1_page_beyond_document_is_committed :
  forall K : Constants,
    SplitViewChat.pdf (document_session K 5) =
      Some {| PDFViewer.numPages := Some 5; PDFViewer.pageNumber := 1;
              PDFViewer.loading := false; PDFViewer.error := None |} /\
    SplitViewChat.handleSourceNavigate K (pdf_citation 9) (document_session K 5) =
      Normal {| SplitViewChat.mode := SPLIT_VIEW_MODES_PDF K;
                SplitViewChat.currentPage := 9;
                SplitViewChat.currentTimestamp := 0;
                SplitViewChat.youtubePlayerRef := None;
                SplitViewChat.pdf :=
                  Some {| PDFViewer.numPages := Some 5; PDFViewer.pageNumber := 9;
                          PDFViewer.loading := false; PDFViewer.error := None |};
                SplitViewChat.youtube := None |}.
Proof.
  intros K. unfold document_session, SplitViewChat.mount.
  rewrite String.eqb_refl. cbn [andb]. split; [reflexivity|].
  rewrite navigate_pdf by reflexivity. reflexivity.
Qed.

(** C3: a citation whose variant does not match the content kind of the
    session (a document citation in a stream session or the reverse)
    leaves the whole session, hence the page of the document viewer and
    the position of the stream viewer, unchanged and does not throw;
    the same holds for the click on its source card. *)
Theorem C3_mismatched_citation_is_ignored :
  forall (K : Constants) (source : Source) (s : SplitViewChat.Session),
    SPLIT_VIEW_MODES_PDF K <> SPLIT_VIEW_MODES_YOUTUBE K ->
    SOURCE_TYPES_PDF K <> SOURCE_TYPES_YOUTUBE K ->
    (SplitViewChat.mismatch K source s ->
       SplitViewChat.handleSourceNavigate K source s = Normal s) /\
    (SplitViewChat.card_mismatch K source s ->
       SplitViewChat.handleClick K source s = Normal s).
Proof.
  intros K source s Hmode Hsrc. split.
  - now apply navigate_mismatch.
  - intros [[Ht Hm]|[Ht Hm]]; unfold SplitViewChat.handleClick; rewrite Ht.
    + rewrite String.eqb_refl. apply navigate_mismatch; [exact Hmode|].
      left. now split.
    + apply not_eq_sym, String.eqb_neq in Hsrc. rewrite Hsrc, String.eqb_refl.
      apply navigate_mismatch; [exact Hmode|]. right. now split.
Qed.

Lemma C3_witness :
  let s := SplitViewChat.playerReady (stream_session constants) in
  SplitViewChat.mismatch constants (pdf_citation 7) s /\
  SplitViewChat.card_mismatch constants (pdf_citation 7) s /\
  SplitViewChat.handleSourceNavigate constants (pdf_citation 7) s = Normal s /\
  SplitViewChat.handleClick constants (pdf_citation 7) s = Normal s.
Proof.
  cbv zeta.
  assert (Hm : SplitViewChat.mismatch constants (pdf_citation 7)
                 (SplitViewChat.playerReady (stream_session constants)))
    by (left; split; reflexivity).
  assert (Hc : SplitViewChat.card_mismatch constants (pdf_citation 7)
                 (SplitViewChat.playerReady (stream_session constants)))
    by (left; split; reflexivity).
  split; [exact Hm|]. split; [exact Hc|].
  destruct (C3_mismatched_citation_is_ignored constants (pdf_citation 7)
              (SplitViewChat.playerReady (stream_session constants)))
    as [H1 H2]; [discriminate | discriminate |].
  split; [exact (H1 Hm) | exact (H2 Hc)].
Defined.

(** C6: while the player of a stream session has not reported ready, a
    seek request is dropped: [seekTo] on a null player returns without
    effect, a citation click leaves the session (player position and
    play state included) unchanged and does not throw, and when the
    player becomes ready afterwards the session is the one it would be
    in had nothing been clicked, so no dropped request is replayed. *)
Theorem C6_seek_before_ready_is_dropped :
  forall (K : Constants) (s : SplitViewChat.Session) (clicks : list Source),
    SPLIT_VIEW_MODES_PDF K <> SPLIT_VIEW_MODES_YOUTUBE K ->
    SplitViewChat.mode s = SPLIT_VIEW_MODES_YOUTUBE K ->
    SplitViewChat.youtubePlayerRef s = None ->
    (forall t y, YouTubePlayer.seekTo None t y = Normal y) /\
    (forall source, type source = "youtube"%string ->
       SplitViewChat.handleSourceNavigate K source s = Normal s) /\
    SplitViewChat.run K (map SplitViewChat.SourceClick clicks) s = Normal s /\
    SplitViewChat.run K
      (map SplitViewChat.SourceClick clicks ++ [SplitViewChat.PlayerReady]) s =
      Normal (SplitViewChat.playerReady s).
Proof.
  intros K s clicks Hne Hm Hr. repeat split.
  - intros source Ht. rewrite navigate_youtube by assumption. now rewrite Hr.
  - rewrite <- (app_nil_r (map _ clicks)).
    now rewrite clicks_before_ready.
  - now rewrite clicks_before_ready.
Qed.

Lemma C6_witness :
  SplitViewChat.mode (stream_session constants) = SPLIT_VIEW_MODES_YOUTUBE constants /\
  SplitViewChat.youtubePlayerRef (stream_session constants) = None /\
  SplitViewChat.run constants
    (map SplitViewChat.SourceClick [youtube_citation 125; youtube_citation 30]
       ++ [SplitViewChat.PlayerReady]) (stream_session constants) =
    Normal (SplitViewChat.playerReady (stream_session constants)).
Proof.
  split; [reflexivity|]. split; [reflexivity|].
  apply (C6_seek_before_ready_is_dropped constants (stream_session constants)
           [youtube_citation 125; youtube_citation 30]);
    [discriminate | reflexivity | reflexivity].
Defined.

(** C7: once the player is ready, a seek request moves the player to
    the requested timestamp and puts it in the playing state, both for
    [seekTo] itself and for the citation click that reaches it. *)
Theorem C7_seek_when_ready_plays_from_timestamp :
  forall (K : Constants) (s : SplitViewChat.Session) (source : Source),
    SplitViewChat.mode s = SPLIT_VIEW_MODES_YOUTUBE K ->
    SplitViewChat.ready s ->
    type source = "youtube"%string ->
    (forall r t y, exists y',
       YouTubePlayer.seekTo (Some r) t y = Normal y' /\
       YouTubePlayer.position (YouTubePlayer.instance y') = t /\
       YouTubePlayer.playerState (YouTubePlayer.instance y') = YouTubePlayer.PLAYING) /\
    exists y',
      SplitViewChat.handleSourceNavigate K source s =
        Normal (SplitViewChat.with_youtube (Some y') s) /\
      YouTubePlayer.position (YouTubePlayer.instance y') = timestamp source /\
      YouTubePlayer.playerState (YouTubePlayer.instance y') = YouTubePlayer.PLAYING.
Proof.
  intros K s source Hm (y & Hy & Hp & Hr) Ht. split.
  - intros r t y0. eexists. cbn. repeat split.
  - rewrite navigate_youtube by assumption. rewrite Hr.
    unfold SplitViewChat.call_seekTo. rewrite Hy. cbn.
    eexists. repeat split.
Qed.

Lemma C7_witness :
  let s := SplitViewChat.playerReady (stream_session constants) in
  SplitViewChat.mode s = SPLIT_VIEW_MODES_YOUTUBE constants /\
  SplitViewChat.ready s /\
  exists y',
    SplitViewChat.handleSourceNavigate constants (youtube_citation 125) s =
      Normal (SplitViewChat.with_youtube (Some y') s) /\
    YouTubePlayer.position (YouTubePlayer.instance y') = 125 /\
    YouTubePlayer.playerState (YouTubePlayer.instance y') = YouTubePlayer.PLAYING.
Proof.
  cbv zeta. split; [reflexivity|].
  assert (Hr : SplitViewChat.ready (SplitViewChat.playerReady (stream_session constants)))
    by (eapply playerReady_ready; reflexivity).
  split; [exact Hr|].
  exact (proj2 (C7_seek_when_ready_plays_from_timestamp constants
                  (SplitViewChat.playerReady (stream_session constants))
                  (youtube_citation 125) eq_refl Hr eq_refl)).
Defined.

(** ** Properties of the transcript *)

Section TranscriptFacts.
Import ChatContainer.

Lemma handleSend_messages a s :
  messages (handleSend a s) = messages s ++ exchange a.
Proof.
  unfold handleSend, handleSend_resume, handleSend_begin, exchange, reply.
  cbn [messages]. rewrite <- app_assoc. reflexivity.
Qed.

Lemma asks_messages l : forall s,
  messages (asks l s) = messages s ++ flat_map exchange l.
Proof.
  induction l as [|a l IH]; intros s; cbn [asks fold_left flat_map].
  - now rewrite app_nil_r.
  - change (fold_left (fun s0 a0 => handleSend a0 s0) l (handleSend a s))
      with (asks l (handleSend a s)).
    rewrite IH, handleSend_messages, <- app_assoc. reflexivity.
Qed.

Lemma reply_id a : id (reply a) = settledAt a + 1.
Proof. unfold reply. now destruct (outcome a). Qed.

Lemma spaced_increasing l : forall after,
  spaced after l ->
  Forall (fun i => after < i) (map id (flat_map exchange l)) /\
  increasing (map id (flat_map exchange l)).
Proof.
  induction l as [|a l IH]; intros after Hsp; cbn [flat_map map].
  - split; [constructor | exact I].
  - destruct Hsp as (H1 & H2 & H3). destruct (IH _ H3) as [Hall Hinc].
    cbn [exchange app map]. rewrite reply_id. cbn [id userMessage].
    assert (Hrest : Forall (fun i => sentAt a < i) (map id (flat_map exchange l))).
    { eapply List.Forall_impl; [|exact Hall]. cbn. intros; lia. }
    split.
    + constructor; [lia|]. constructor; [lia|].
      eapply List.Forall_impl; [|exact Hall]. cbn. intros; lia.
    + cbn [increasing]. repeat split.
      * constructor; [lia | exact Hrest].
      * exact Hall.
      * exact Hinc.
Qed.

Lemma increasing_NoDup l : increasing l -> NoDup l.
Proof.
  induction l as [|x l IH]; intros H; [constructor|].
  destruct H as [Hx Hl]. constructor; [|now apply IH].
  intros Hin. rewrite Forall_forall in Hx. specialize (Hx _ Hin). lia.
Qed.

Lemma increasing_sort_by_id l :
  increasing (map id l) -> sort_by_id l = l.
Proof.
  induction l as [|x l IH]; intros H; [reflexivity|].
  destruct H as [Hx Hl]. cbn [sort_by_id fold_right].
  change (fold_right insert_by_id [] l) with (sort_by_id l).
  rewrite IH by exact Hl.
  destruct l as [|y l']; [reflexivity|].
  cbn [insert_by_id]. cbn [map] in Hx. apply Forall_inv in Hx.
  destruct (Z.ltb_spec (id x) (id y)); [reflexivity | lia].
Qed.

End TranscriptFacts.

(** C2 (at the input the code gets wrong): with clock readings that
    never go backwards, an ask submitted in the millisecond the previous
    one settled makes [handleSend] assign the ids 1000, 1501, 1500,
    1501: they are not pairwise distinct and sorting by id does not
    give the order of creation.  The two replies then share the element
    id the transcript renders, and a lookup by it reaches the first
    reply (position 1), never the second (position 3). *)
Lemma C2_ids_collide_for_rapid_asks :
  let st := ChatContainer.asks rapid_asks ChatContainer.mount in
  ChatContainer.ids st = [1000; 1501; 1500; 1501] /\
  ~ NoDup (ChatContainer.ids st) /\
  ChatContainer.sort_by_id (ChatContainer.messages st) <> ChatContainer.messages st /\
  id <$> ChatContainer.messages st !! 3%nat = Some 1501 /\
  TranscriptView.getElementById (TranscriptView.elementId 1501)
    (TranscriptView.mount (ChatContainer.messages st)) = Some 1%nat.
Proof.
  cbv zeta. split; [reflexivity|]. split; [|split; [|split]].
  - change (ChatContainer.ids (ChatContainer.asks rapid_asks ChatContainer.mount))
      with [1000; 1501; 1500; 1501].
    intros H. apply NoDup_cons_1_2 in H. inversion H as [|? ? Hn _]; subst.
    apply Hn. right. left.
  - intros H. apply (f_equal (map id)) in H. vm_compute in H. discriminate H.
  - reflexivity.
  - vm_compute. reflexivity.
Qed.

(** The ids [handleSend] assigns are in order only under a condition on
    the clock it does not check: every ask submitted more than a
    millisecond after the previous one has settled, and settling no
    earlier than it was submitted. *)
Lemma spaced_asks_have_ordered_ids :
  forall (after : Z) (l : list ChatContainer.Ask),
    ChatContainer.spaced after l ->
    let st := ChatContainer.asks l ChatContainer.mount in
    NoDup (ChatContainer.ids st) /\
    ChatContainer.sort_by_id (ChatContainer.messages st) = ChatContainer.messages st.
Proof.
  intros after l Hsp st. subst st. unfold ChatContainer.ids.
  rewrite asks_messages. cbn [ChatContainer.messages ChatContainer.mount app].
  destruct (spaced_increasing l after Hsp) as [_ Hinc].
  split; [now apply increasing_NoDup | now apply increasing_sort_by_id].
Qed.

(** C8: an ask whose answer-service call fails leaves the transcript
    with the earlier messages unchanged, followed by the user message
    and a synthetic assistant message whose text carries the error
    message and whose sources are empty; the loading flag is cleared
    and a further ask appends its own two messages as usual. *)
Theorem C8_failed_ask_appends_error_message :
  forall (s : ChatContainer.State) (sent settled : Z) (q e : string),
    let a := {| ChatContainer.sentAt := sent; ChatContainer.settledAt := settled;
                ChatContainer.asked := q;
                ChatContainer.outcome := ChatContainer.Rejected e |} in
    let s' := ChatContainer.handleSend a s in
    exists m : Message,
      ChatContainer.messages s' =
        ChatContainer.messages s ++ [ChatContainer.userMessage sent q; m] /\
      role m = assistant /\
      sources m = Some [] /\
      content m = "Sorry, I encountered an error: " +:+ e +:+ ". Please try again." /\
      ChatContainer.loading s' = false /\
      forall a' : ChatContainer.Ask,
        ChatContainer.messages (ChatContainer.handleSend a' s') =
          ChatContainer.messages s' ++ ChatContainer.exchange a'.
Proof.
  intros s sent settled q e a s'.
  exists (ChatContainer.errorMessage settled e). subst s' a.
  rewrite handleSend_messages. repeat split.
  intros a'. now rewrite !handleSend_messages.
Qed.

(** ** Properties of the bookmark store *)

Section BookmarkFacts.
Import BookmarkContext.

Lemma isBookmarked_elem i st :
  isBookmarked i st = true <-> i ∈ bookmark_ids st.
Proof.
  unfold isBookmarked, bookmark_ids. induction st as [|b st IH]; cbn.
  - split; [discriminate | intros H; inversion H].
  - rewrite orb_true_iff, IH, elem_of_cons. unfold has_id.
    rewrite Z.eqb_eq. split; intros [H|H]; auto.
Qed.

Lemma isBookmarked_app i st st' :
  isBookmarked i (st ++ st') = (isBookmarked i st || isBookmarked i st')%bool.
Proof. apply existsb_app. Qed.

Lemma stored_none i st : isBookmarked i st = false -> stored i st = None.
Proof.
  unfold isBookmarked, stored. induction st as [|b st IH]; cbn; [reflexivity|].
  destruct (has_id i b); cbn; [discriminate | exact IH].
Qed.

Lemma stored_app i st st' :
  stored i (st ++ st') =
    match stored i st with Some b => Some b | None => stored i st' end.
Proof.
  unfold stored. induction st as [|b st IH]; cbn; [reflexivity|].
  now destruct (has_id i b).
Qed.

Lemma stored_add i now m st :
  stored i (addBookmark now m st) =
    match stored i st with
    | Some b => Some b
    | None => if id m =? i then Some {| snapshot := m; bookmarkedAt := now |} else None
    end.
Proof.
  unfold addBookmark.
  destruct (existsb (has_id (id m)) st) eqn:He.
  - destruct (stored i st) eqn:Hs; [reflexivity|].
    destruct (Z.eqb_spec (id m) i) as [<-|]; [|reflexivity].
    unfold stored in Hs. clear - He Hs. exfalso.
    induction st as [|b st IH]; cbn in *; [discriminate|].
    destruct (has_id (id m) b); [discriminate | auto].
  - rewrite stored_app. destruct (stored i st); [reflexivity|].
    unfold stored. cbn. unfold has_id. cbn. reflexivity.
Qed.

Lemma add_ids now m st :
  NoDup (bookmark_ids st) ->
  NoDup (bookmark_ids (addBookmark now m st)) /\
  (list_to_set (bookmark_ids (addBookmark now m st)) : gset Z) =
    list_to_set (bookmark_ids st) ∪ {[ id m ]}.
Proof.
  intros Hnd. unfold addBookmark.
  change (existsb (has_id (id m)) st) with (isBookmarked (id m) st).
  destruct (isBookmarked (id m) st) eqn:He.
  - split; [exact Hnd|]. apply isBookmarked_elem in He.
    apply set_eq. intros x. rewrite elem_of_union, elem_of_singleton, !elem_of_list_to_set.
    split; [auto | intros [H| ->]; auto].
  - assert (Hni : id m ∉ bookmark_ids st).
    { intros H. apply isBookmarked_elem in H. congruence. }
    unfold bookmark_ids. rewrite map_app. cbn [map snapshot]. split.
    + apply NoDup_app. repeat split; [exact Hnd | | apply NoDup_singleton].
      intros x Hx Hx'. apply list_elem_of_singleton in Hx'. subst x. now apply Hni.
    + now rewrite list_to_set_app_L, list_to_set_singleton_L.
Qed.

Lemma addAll_ids calls : forall st,
  NoDup (bookmark_ids st) ->
  NoDup (bookmark_ids (addAll calls st)) /\
  (list_to_set (bookmark_ids (addAll calls st)) : gset Z) =
    list_to_set (bookmark_ids st) ∪ added_ids calls.
Proof.
  induction calls as [|c calls IH]; intros st Hnd; cbn [addAll fold_left].
  - split; [exact Hnd|]. unfold added_ids. cbn [map list_to_set].
    now rewrite (right_id_L ∅ (∪)).
  - change (fold_left (fun st0 c0 => addBookmark (fst c0) (snd c0) st0) calls
              (addBookmark (fst c) (snd c) st))
      with (addAll calls (addBookmark (fst c) (snd c) st)).
    destruct (add_ids (fst c) (snd c) st Hnd) as [Hnd' Hset].
    destruct (IH _ Hnd') as [Hnd'' Hset'']. split; [exact Hnd''|].
    rewrite Hset'', Hset. unfold added_ids. cbn [map list_to_set].
    now rewrite (assoc_L (∪)).
Qed.

Lemma addAll_stored i calls : forall st,
  stored i (addAll calls st) =
    match stored i st with Some b => Some b | None => first_call i calls end.
Proof.
  induction calls as [|c calls IH]; intros st; cbn [addAll fold_left].
  - unfold first_call. cbn. now destruct (stored i st).
  - change (fold_left (fun st0 c0 => addBookmark (fst c0) (snd c0) st0) calls
              (addBookmark (fst c) (snd c) st))
      with (addAll calls (addBookmark (fst c) (snd c) st)).
    rewrite IH, stored_add. destruct (stored i st); [reflexivity|].
    unfold first_call. cbn [List.find].
    destruct (id (snd c) =? i); reflexivity.
Qed.

Lemma isBookmarked_remove i j st :
  isBookmarked j (removeBookmark i st) =
    (negb (j =? i) && isBookmarked j st)%bool.
Proof.
  unfold isBookmarked, removeBookmark, has_id.
  induction st as [|b st IH]; cbn; [now rewrite andb_false_r|].
  destruct (Z.eqb_spec (id (snapshot b)) i) as [Hi|Hi]; cbn; rewrite IH.
  - destruct (Z.eqb_spec j i) as [Hj|Hj]; cbn; [reflexivity|].
    destruct (Z.eqb_spec (id (snapshot b)) j); [congruence | reflexivity].
  - destruct (Z.eqb_spec (id (snapshot b)) j) as [Hj|Hj]; cbn.
    + destruct (Z.eqb_spec j i); [congruence | reflexivity].
    + reflexivity.
Qed.

Lemma filter_remove i j st :
  List.filter (has_id j) (removeBookmark i st) =
    if j =? i then [] else List.filter (has_id j) st.
Proof.
  unfold removeBookmark, has_id. induction st as [|b st IH]; cbn.
  - now destruct (j =? i).
  - destruct (Z.eqb_spec (id (snapshot b)) i) as [Hi|Hi]; cbn.
    + rewrite IH. destruct (Z.eqb_spec j i) as [Hj|Hj]; [reflexivity|].
      destruct (Z.eqb_spec (id (snapshot b)) j); [congruence | reflexivity].
    + rewrite IH. destruct (Z.eqb_spec j i) as [Hj|Hj].
      * destruct (Z.eqb_spec (id (snapshot b)) j); [congruence | reflexivity].
      * reflexivity.
Qed.

Lemma filter_not_bookmarked j st :
  isBookmarked j st = false -> List.filter (has_id j) st = [].
Proof.
  unfold isBookmarked. induction st as [|b st IH]; cbn; [reflexivity|].
  destruct (has_id j b); cbn; [discriminate | exact IH].
Qed.

Lemma isBookmarked_click i now m st :
  isBookmarked i (handleClick now m st) =
    if i =? id m then negb (isBookmarked (id m) st) else isBookmarked i st.
Proof.
  unfold handleClick, addBookmark.
  change (existsb (has_id (id m)) st) with (isBookmarked (id m) st).
  destruct (isBookmarked (id m) st) eqn:Hb.
  - rewrite isBookmarked_remove. destruct (Z.eqb_spec i (id m)); reflexivity.
  - rewrite isBookmarked_app. cbn. unfold has_id. cbn.
    rewrite orb_false_r, (Z.eqb_sym (id m) i).
    destruct (Z.eqb_spec i (id m)) as [->|]; [now rewrite Hb | now rewrite orb_false_r].
Qed.

End BookmarkFacts.

(** C5: after any sequence of [addBookmark] calls on an empty store, the
    store holds as many bookmarks as there are distinct message ids in
    the sequence, and the bookmark kept under an id is the snapshot made
    by the first call for that id. *)
Theorem C5_add_keeps_first_snapshot_per_id :
  forall calls : list (Z * Message),
    let store := BookmarkContext.addAll calls [] in
    length store = size (BookmarkContext.added_ids calls) /\
    forall i : Z,
      BookmarkContext.stored i store = BookmarkContext.first_call i calls.
Proof.
  intros calls store. subst store. split.
  - destruct (addAll_ids calls [] (NoDup_nil_2 : NoDup (BookmarkContext.bookmark_ids []))) as [Hnd Hset].
    rewrite <- (length_map (fun b => id (BookmarkContext.snapshot b))).
    change (map _ (BookmarkContext.addAll calls []))
      with (BookmarkContext.bookmark_ids (BookmarkContext.addAll calls [])).
    rewrite <- (size_list_to_set (C := gset Z)) by exact Hnd.
    rewrite Hset. cbn [BookmarkContext.bookmark_ids map list_to_set].
    now rewrite (left_id_L ∅ (∪)).
  - intros i. now rewrite addAll_stored.
Qed.

(** C10: one click of the bookmark button on a message flips whether
    its id is bookmarked: a bookmarked id loses its bookmarks, an id not
    bookmarked gets one snapshot of the message (its id, question,
    answer and sources) at the end of the store; bookmarks under other
    ids stay as they are, and after a second click every id is
    bookmarked exactly if it was before the first. *)
Theorem C10_click_toggles_bookmark :
  forall (now now' : Z) (m : Message) (st : list BookmarkContext.Bookmark),
    let st' := BookmarkContext.handleClick now m st in
    BookmarkContext.isBookmarked (id m) st' =
      negb (BookmarkContext.isBookmarked (id m) st) /\
    st' = (if BookmarkContext.isBookmarked (id m) st
           then BookmarkContext.removeBookmark (id m) st
           else st ++ [{| BookmarkContext.snapshot := m;
                          BookmarkContext.bookmarkedAt := now |}]) /\
    (forall j : Z,
       List.filter (BookmarkContext.has_id j) st' =
         if j =? id m
         then (if BookmarkContext.isBookmarked (id m) st then []
               else [{| BookmarkContext.snapshot := m;
                        BookmarkContext.bookmarkedAt := now |}])
         else List.filter (BookmarkContext.has_id j) st) /\
    (forall j : Z,
       BookmarkContext.isBookmarked j (BookmarkContext.handleClick now' m st') =
       BookmarkContext.isBookmarked j st).
Proof.
  intros now now' m st st'. subst st'. repeat split.
  - now rewrite isBookmarked_click, Z.eqb_refl.
  - unfold BookmarkContext.handleClick, BookmarkContext.addBookmark.
    change (existsb (BookmarkContext.has_id (id m)) st)
      with (BookmarkContext.isBookmarked (id m) st).
    now destruct (BookmarkContext.isBookmarked (id m) st).
  - intros j. unfold BookmarkContext.handleClick, BookmarkContext.addBookmark.
    change (existsb (BookmarkContext.has_id (id m)) st)
      with (BookmarkContext.isBookmarked (id m) st).
    destruct (BookmarkContext.isBookmarked (id m) st) eqn:Hb.
    + apply filter_remove.
    + rewrite List.filter_app. cbn. unfold BookmarkContext.has_id at 2. cbn.
      rewrite (Z.eqb_sym (id m) j).
      destruct (Z.eqb_spec j (id m)) as [->|].
      * now rewrite filter_not_bookmarked.
      * now rewrite app_nil_r.
  - intros j. rewrite !isBookmarked_click.
    destruct (j =? id m) eqn:Hj; [|reflexivity].
    rewrite Z.eqb_refl, negb_involutive.
    apply Z.eqb_eq in Hj. now subst j.
Qed.

(** ** The end-to-end scenarios of the design document *)

(** Scenario A: in a document session, the click on a source of page 7
    brings the document viewer to page 7. *)
Example scenario_A :
  SplitViewChat.run constants [SplitViewChat.SourceClick (pdf_citation 7)]
    (document_session constants 12) =
  Normal (SplitViewChat.with_page 7
            (Some {| PDFViewer.numPages := Some 12; PDFViewer.pageNumber := 7;
                     PDFViewer.loading := false; PDFViewer.error := None |})
            (document_session constants 12)).
Proof. reflexivity. Qed.

(** Scenario B: in a stream session, a click before the player is ready
    changes nothing; after readiness the same click seeks to 125 and
    plays. *)
Example scenario_B :
  SplitViewChat.run constants
    [SplitViewChat.SourceClick (youtube_citation 125)] (stream_session constants) =
    Normal (stream_session constants) /\
  (s ← SplitViewChat.run constants
         [SplitViewChat.SourceClick (youtube_citation 125);
          SplitViewChat.PlayerReady;
          SplitViewChat.SourceClick (youtube_citation 125)] (stream_session constants);
   mret (YouTubePlayer.instance <$> SplitViewChat.youtube s)) =
    Normal (Some {| YouTubePlayer.position := 125;
                    YouTubePlayer.playerState := YouTubePlayer.PLAYING;
                    YouTubePlayer.muted := false |}).
Proof. split; reflexivity. Qed.

(** ** Further properties of the document viewer's toolbar *)

Section ToolbarFacts.
Import PDFToolbar.

Ltac float_cases H :=
  repeat (destruct H as [H|H]; [subst|]); [..|destruct H].

Ltac pick_level :=
  cbn; repeat (first [left; reflexivity | right]).

Lemma step_zoom_level t e :
  In (scale t) zoom_levels -> In (scale (step t e)) zoom_levels.
Proof.
  destruct t as [sc fs]. cbn [scale]. intros H.
  unfold zoom_levels in H. cbn [In] in H.
  float_cases H; destruct e; vm_compute; tauto.
Qed.

Lemma run_zoom_level es : forall t,
  In (scale t) zoom_levels -> In (scale (run es t)) zoom_levels.
Proof.
  induction es as [|e es IH]; intros t H; [exact H|].
  apply IH, step_zoom_level, H.
Qed.

Lemma zoom_level_bounds x :
  In x zoom_levels -> (0.5 <=? x)%float = true /\ (x <=? 2.5)%float = true.
Proof.
  unfold zoom_levels. cbn [In]. intros H.
  float_cases H; split; reflexivity.
Qed.

Lemma zoom_level_laws t :
  In (scale t) zoom_levels ->
  (zoomInDisabled t = true -> zoomIn t = t) /\
  (zoomOutDisabled t = true -> zoomOut t = t) /\
  (zoomInDisabled t = false -> zoomOut (zoomIn t) = t) /\
  (zoomOutDisabled t = false -> zoomIn (zoomOut t) = t).
Proof.
  destruct t as [sc fs]. cbn [scale]. unfold zoom_levels. cbn [In]. intros H.
  float_cases H; repeat split; vm_compute; intros; first [reflexivity | discriminate].
Qed.

End ToolbarFacts.

(** X1: whatever zoom, reset and fullscreen buttons are clicked, the
    zoom factor of the document viewer is one of the nine quarter steps
    from 0.5 to 2.5 and so stays within these two limits. *)
Theorem zoom_stays_on_quarter_steps :
  forall es : list PDFToolbar.Event,
    let t := PDFToolbar.run es PDFToolbar.mount in
    In (PDFToolbar.scale t) PDFToolbar.zoom_levels /\
    (0.5 <=? PDFToolbar.scale t)%float = true /\
    (PDFToolbar.scale t <=? 2.5)%float = true.
Proof.
  intros es t.
  assert (H : In (PDFToolbar.scale t) PDFToolbar.zoom_levels).
  { apply run_zoom_level. vm_compute. tauto. }
  split; [exact H | now apply zoom_level_bounds].
Qed.

(** X2: in every state the toolbar reaches, zooming in and then out (or
    out and then in) gives back the same zoom factor as long as the
    first button is enabled, and the handler behind a disabled zoom
    button would change nothing. *)
Theorem zoom_in_and_out_cancel :
  forall es : list PDFToolbar.Event,
    let t := PDFToolbar.run es PDFToolbar.mount in
    (if PDFToolbar.zoomInDisabled t
     then PDFToolbar.zoomIn t = t
     else PDFToolbar.zoomOut (PDFToolbar.zoomIn t) = t) /\
    (if PDFToolbar.zoomOutDisabled t
     then PDFToolbar.zoomOut t = t
     else PDFToolbar.zoomIn (PDFToolbar.zoomOut t) = t).
Proof.
  intros es t.
  assert (H : In (PDFToolbar.scale t) PDFToolbar.zoom_levels).
  { apply run_zoom_level. vm_compute. tauto. }
  destruct (zoom_level_laws t H) as (H1 & H2 & H3 & H4).
  split.
  - destruct (PDFToolbar.zoomInDisabled t); auto.
  - destruct (PDFToolbar.zoomOutDisabled t); auto.
Qed.

(** ** Further properties of paging and of the session *)

Section SessionFacts.
Import SplitViewChat SessionTrace.

(** The commits after a state update of the viewer itself: a changed
    page reaches the parent cell through [onPageChange]. *)
Lemma update_closed f m :
  PDFViewer.update f m =
    {| PDFViewer.initialPage :=
         if PDFViewer.pageNumber (f (PDFViewer.view m)) =? PDFViewer.pageNumber (PDFViewer.view m)
         then PDFViewer.initialPage m
         else PDFViewer.pageNumber (f (PDFViewer.view m));
       PDFViewer.view := f (PDFViewer.view m) |}.
Proof.
  destruct m as [c v]. unfold PDFViewer.update, PDFViewer.fuel.
  cbn [PDFViewer.initialPage PDFViewer.view].
  destruct (Z.eqb_spec (PDFViewer.pageNumber (f v)) (PDFViewer.pageNumber v)) as [E|E].
  - cbn [PDFViewer.settle PDFViewer.initialPage PDFViewer.view].
    rewrite Z.eqb_refl. apply Z.eqb_eq in E. now rewrite E.
  - cbn [PDFViewer.settle PDFViewer.initialPage PDFViewer.view].
    rewrite Z.eqb_refl. apply Z.eqb_neq in E. rewrite E. cbn [andb].
    unfold PDFViewer.commit. cbn [PDFViewer.initialPage PDFViewer.view].
    rewrite Z.eqb_refl, E. cbn [negb andb].
    rewrite !Z.eqb_refl, andb_true_r.
    destruct (PDFViewer.pageNumber (f v) =? c) eqn:Ec; [reflexivity|].
    cbn [negb andb]. now rewrite ?andb_false_r, ?Z.eqb_refl.
Qed.

Lemma update_synced f m : PDFViewer.synced m -> PDFViewer.synced (PDFViewer.update f m).
Proof.
  intros Hs. rewrite update_closed. unfold PDFViewer.synced.
  cbn [PDFViewer.initialPage PDFViewer.view].
  destruct (Z.eqb_spec (PDFViewer.pageNumber (f (PDFViewer.view m)))
              (PDFViewer.pageNumber (PDFViewer.view m))) as [E|E].
  - rewrite E. exact Hs.
  - now left.
Qed.

Lemma setCurrentPage_mirrored n s : page_mirrored s -> page_mirrored (setCurrentPage n s).
Proof.
  unfold page_mirrored, setCurrentPage. destruct (pdf s) as [v|] eqn:Hv; cbn; [|trivial].
  intros H.
  apply (setPage_synced n {| PDFViewer.initialPage := currentPage s; PDFViewer.view := v |}).
  exact H.
Qed.

Lemma inViewer_mirrored f s : page_mirrored s -> page_mirrored (inViewer f s).
Proof.
  unfold page_mirrored, inViewer. destruct (pdf s) as [v|] eqn:Hv; cbn.
  - intros H.
    apply (update_synced f {| PDFViewer.initialPage := currentPage s; PDFViewer.view := v |}).
    exact H.
  - now rewrite Hv.
Qed.

Context (K : Constants).

(** Navigation completes normally from every session: the handle is
    called only when present, and [seekTo] guards its player. *)
Lemma navigate_cases source s :
  handleSourceNavigate K source s = Normal s \/
  handleSourceNavigate K source s = Normal (setCurrentPage (page source) s) \/
  exists y, youtube s = Some y /\
    handleSourceNavigate K source s =
      Normal (with_youtube
                (Some (YouTubePlayer.on_instance YouTubePlayer.yt_playVideo
                         (YouTubePlayer.on_instance
                            (YouTubePlayer.yt_seekTo (timestamp source)) y))) s).
Proof.
  unfold handleSourceNavigate.
  destruct (_ && _)%bool; [right; left; reflexivity|].
  destruct (_ && _)%bool; [|left; reflexivity].
  destruct (youtubePlayerRef s) as [[[r|]]|]; [| |left; reflexivity].
  - unfold call_seekTo. destruct (youtube s) as [y|] eqn:Hy; [|left; reflexivity].
    right; right. exists y. split; reflexivity.
  - unfold call_seekTo. destruct (youtube s) as [y|] eqn:Hy; [|left; reflexivity].
    left. cbn. rewrite <- Hy. now destruct s.
Qed.

End SessionFacts.

Section SessionTraceFacts.
Import SplitViewChat SessionTrace.
Context (K : Constants).

(** The five shapes a step of the session can take. *)
Lemma step_cases s e :
  step K s e = Normal s \/
  (exists n, step K s e = Normal (setCurrentPage n s)) \/
  (exists y y', youtube s = Some y /\
     YouTubePlayer.player y' = YouTubePlayer.player y /\
     step K s e = Normal (with_youtube (Some y') s)) \/
  (e = PlayerReady /\ step K s e = Normal (playerReady s)) \/
  (exists f, e <> PlayerReady /\ step K s e = Normal (inViewer f s)).
Proof.
  assert (Hnav : forall source,
    handleSourceNavigate K source s = Normal s \/
    (exists n, handleSourceNavigate K source s = Normal (setCurrentPage n s)) \/
    (exists y y', youtube s = Some y /\
       YouTubePlayer.player y' = YouTubePlayer.player y /\
       handleSourceNavigate K source s = Normal (with_youtube (Some y') s))).
  { intros source. destruct (navigate_cases K source s) as [H|[H|(y & Hy & H)]].
    - now left.
    - right; left. eauto.
    - right; right. exists y. eexists. split; [exact Hy|]. split; [|exact H].
      reflexivity. }
  destruct e as [source| |n| | |n]; cbn [step].
  - unfold handleClick.
    destruct (String.eqb (type source) (SOURCE_TYPES_PDF K)).
    + destruct (Hnav (forwarded_pdf source)) as [H|[H|H]]; auto.
    + destruct (String.eqb (type source) (SOURCE_TYPES_YOUTUBE K)); [|now left].
      destruct (Hnav (forwarded_youtube source)) as [H|[H|H]]; auto.
  - right; right; right; left. now split.
  - right; right; right; right. eexists. split; [discriminate|reflexivity].
  - right; right; right; right. eexists. split; [discriminate|reflexivity].
  - right; right; right; right. eexists. split; [discriminate|reflexivity].
  - right; right; right; right. eexists. split; [discriminate|reflexivity].
Qed.

(** An invariant of every step is an invariant of every run, and no
    run throws. *)
Lemma run_invariant (P : Session -> Prop) :
  (forall s e s', P s -> step K s e = Normal s' -> P s') ->
  forall es s, P s -> exists s', run K es s = Normal s' /\ P s'.
Proof.
  intros Hstep es. induction es as [|e es IH]; intros s Hs.
  - exists s. now split.
  - cbn [run].
    assert (Hn : exists s1, step K s e = Normal s1).
    { destruct (step_cases s e) as [H|[[n H]|[(y & y' & _ & _ & H)|[[_ H]|[f [_ H]]]]]];
        eauto. }
    destruct Hn as [s1 H1]. rewrite H1. cbn.
    apply IH. eapply Hstep; eauto.
Qed.

Lemma session_events_step s e : exists s', step K s e = Normal s'.
Proof.
  destruct (step_cases s e) as [H|[[n H]|[(y & y' & _ & _ & H)|[[_ H]|[f [_ H]]]]]];
    eauto.
Qed.

Lemma run_app es1 es2 s :
  run K (es1 ++ es2) s = (s' ← run K es1 s; run K es2 s').
Proof.
  revert s. induction es1 as [|e es1 IH]; intros s; [reflexivity|].
  cbn [app run]. destruct (step K s e) as [s1|err]; [|reflexivity].
  cbn. apply IH.
Qed.

Lemma pdf_setCurrentPage n s :
  mode (setCurrentPage n s) = mode s /\
  youtube (setCurrentPage n s) = youtube s /\
  youtubePlayerRef (setCurrentPage n s) = youtubePlayerRef s /\
  (pdf s = None -> pdf (setCurrentPage n s) = None) /\
  (forall v, pdf s = Some v -> exists v', pdf (setCurrentPage n s) = Some v' /\
     PDFViewer.numPages v' = PDFViewer.numPages v).
Proof.
  unfold setCurrentPage. destruct (pdf s) as [v|] eqn:Hv; cbn; repeat split; try easy.
  intros v0 [= <-]. eexists. split; [reflexivity|].
  apply (setPage_keeps_load n {| PDFViewer.initialPage := currentPage s; PDFViewer.view := v |}).
Qed.

Lemma step_mirrored s e s' :
  page_mirrored s -> step K s e = Normal s' -> page_mirrored s'.
Proof.
  intros Hm Hs.
  destruct (step_cases s e) as [H|[[n H]|[(y & y' & _ & _ & H)|[[_ H]|[f [_ H]]]]]];
    rewrite H in Hs; injection Hs as <-.
  - exact Hm.
  - now apply setCurrentPage_mirrored.
  - exact Hm.
  - unfold playerReady. destruct (youtube s); exact Hm.
  - now apply inViewer_mirrored.
Qed.

Lemma step_document_shown s e s' :
  document_shown K s -> step K s e = Normal s' -> document_shown K s'.
Proof.
  intros (Hmode & [v Hv] & Hm) Hs.
  split; [|split; [|eapply step_mirrored; eauto]];
  destruct (step_cases s e) as [H|[[n H]|[(y & y' & _ & _ & H)|[[_ H]|[f [_ H]]]]]];
    rewrite H in Hs; injection Hs as <-; try (exact Hmode); try (now exists v).
  - destruct (pdf_setCurrentPage n s) as (E & _). now rewrite E.
  - unfold playerReady. now destruct (youtube s).
  - unfold inViewer. now rewrite Hv.
  - destruct (pdf_setCurrentPage n s) as (_ & _ & _ & _ & E).
    destruct (E v Hv) as (v' & Hv' & _). now exists v'.
  - unfold playerReady. destruct (youtube s); now exists v.
  - unfold inViewer. rewrite Hv. cbn. eauto.
Qed.

Lemma mount_document_shown videoId :
  document_shown K (mount K (SPLIT_VIEW_MODES_PDF K) true videoId).
Proof.
  unfold document_shown, page_mirrored, mount. rewrite String.eqb_refl. cbn.
  repeat split; eauto.
Qed.

Lemma click_pdf_card card s :
  type card = SOURCE_TYPES_PDF K -> mode s = SPLIT_VIEW_MODES_PDF K ->
  handleClick K card s = Normal (setCurrentPage (page card) s).
Proof.
  intros Ht Hm. unfold handleClick. rewrite Ht, String.eqb_refl.
  now rewrite navigate_pdf.
Qed.

End SessionTraceFacts.

(** X3: no sequence of source clicks, readiness reports, document loads
    and paging actions makes a handler of the session screen throw,
    whatever state the session is in. *)
Theorem session_events_never_throw :
  forall (K : Constants) (es : list SplitViewChat.Event) (s : SplitViewChat.Session),
    exists s', SplitViewChat.run K es s = Normal s'.
Proof.
  intros K es s.
  destruct (run_invariant K (fun _ => True) (fun _ _ _ _ _ => I) es s I) as (s' & H & _).
  now exists s'.
Qed.

(** X4: after every sequence of events of a freshly opened session, the
    page held by the session screen is the page of the mounted document
    viewer (or the falsy page of a citation the viewer ignored): paging
    inside the viewer is reported back and citations set both. *)
Theorem parent_page_mirrors_viewer :
  forall (K : Constants) (mode : string) (file videoId : bool)
         (es : list SplitViewChat.Event),
    exists s',
      SplitViewChat.run K es (SplitViewChat.mount K mode file videoId) = Normal s' /\
      SessionTrace.page_mirrored s'.
Proof.
  intros K mode file videoId es.
  apply (run_invariant K SessionTrace.page_mirrored (step_mirrored K)).
  unfold SessionTrace.page_mirrored, SplitViewChat.mount. cbn.
  destruct (_ && _)%bool; cbn; auto.
Qed.

(** X5: in a document session, after any history of events, the click
    on a document source card with a non-zero page brings both the
    viewer and the session screen to that page, whether or not the
    document has loaded. *)
Theorem citation_click_reaches_viewer :
  forall (K : Constants) (videoId : bool) (es : list SplitViewChat.Event)
         (card : Source),
    type card = SOURCE_TYPES_PDF K ->
    page card <> 0 ->
    exists s' v',
      SplitViewChat.run K (es ++ [SplitViewChat.SourceClick card])
        (SplitViewChat.mount K (SPLIT_VIEW_MODES_PDF K) true videoId) = Normal s' /\
      SplitViewChat.pdf s' = Some v' /\
      PDFViewer.pageNumber v' = page card /\
      SplitViewChat.currentPage s' = page card.
Proof.
  intros K videoId es card Ht Hp.
  destruct (run_invariant K (SessionTrace.document_shown K) (step_document_shown K) es _
              (mount_document_shown K videoId)) as (s & Hrun & Hmode & [v Hv] & Hm).
  rewrite run_app, Hrun. cbn.
  rewrite click_pdf_card by assumption. cbn.
  unfold SessionTrace.page_mirrored in Hm. rewrite Hv in Hm.
  pose (m := {| PDFViewer.initialPage := SplitViewChat.currentPage s; PDFViewer.view := v |}).
  assert (H1 : PDFViewer.pageNumber (PDFViewer.view (PDFViewer.setPage (page card) m)) = page card).
  { rewrite (setPage_pageNumber (page card) m Hm). unfold PDFViewer.truthy.
    now destruct (Z.eqb_spec (page card) 0). }
  assert (H2 : PDFViewer.initialPage (PDFViewer.setPage (page card) m) = page card).
  { rewrite setPage_settled. subst m. cbn [PDFViewer.initialPage].
    destruct (Z.eqb_spec (page card) (SplitViewChat.currentPage s)); cbn; congruence. }
  unfold SplitViewChat.setCurrentPage. rewrite Hv. fold m.
  exists (SplitViewChat.with_page (PDFViewer.initialPage (PDFViewer.setPage (page card) m))
            (Some (PDFViewer.view (PDFViewer.setPage (page card) m))) s).
  exists (PDFViewer.view (PDFViewer.setPage (page card) m)).
  split; [reflexivity|]. split; [reflexivity|]. split; [exact H1 | exact H2].
Qed.

Lemma citation_click_reaches_viewer_witness :
  type (pdf_citation 7) = SOURCE_TYPES_PDF constants /\ page (pdf_citation 7) <> 0 /\
  exists s' v',
    SplitViewChat.run constants
      ([SplitViewChat.SourceClick (pdf_citation 0); SplitViewChat.DocumentLoaded 12;
        SplitViewChat.NextPage] ++ [SplitViewChat.SourceClick (pdf_citation 7)])
      (SplitViewChat.mount constants (SPLIT_VIEW_MODES_PDF constants) true false) = Normal s' /\
    SplitViewChat.pdf s' = Some v' /\
    PDFViewer.pageNumber v' = page (pdf_citation 7) /\
    SplitViewChat.currentPage s' = page (pdf_citation 7).
Proof.
  split; [reflexivity|]. split; [discriminate|].
  apply (citation_click_reaches_viewer constants false
           [SplitViewChat.SourceClick (pdf_citation 0); SplitViewChat.DocumentLoaded 12;
            SplitViewChat.NextPage] (pdf_citation 7)); [reflexivity|discriminate].
Defined.

Section PagingFacts.
Import PDFViewer PDFToolbar.

Lemma paging_in_document total v :
  numPages v = Some total -> 1 <= pageNumber v <= total ->
  forall f, f = goToNextPage \/ f = goToPrevPage \/ (exists n, f = onPageInput n) ->
  numPages (f v) = Some total /\ 1 <= pageNumber (f v) <= total.
Proof.
  intros Hn Hp f [->|[->|[n ->]]].
  - unfold goToNextPage. rewrite Hn. cbn. split; [exact Hn | lia].
  - unfold goToPrevPage. cbn. split; [exact Hn | lia].
  - unfold onPageInput. rewrite Hn. cbn [toNumber].
    destruct (Z.leb_spec 1 n); destruct (Z.leb_spec n total); cbn; split;
      first [exact Hn | lia].
Qed.

End PagingFacts.

(** X6: once the document has loaded and shows one of its pages, the
    viewer's own paging controls (previous, next, the page box with any
    number typed) never leave the document, whatever page the session
    screen holds; each control that changes the page reports it, so
    afterwards the session screen holds the page the viewer shows,
    unless no control changed the page and both are as before. *)
Theorem paging_controls_stay_in_document :
  forall (K : Constants) (s : SplitViewChat.Session) (v : PDFViewer.State)
         (total : Z) (es : list SplitViewChat.Event),
    SplitViewChat.pdf s = Some v ->
    PDFViewer.numPages v = Some total ->
    1 <= PDFViewer.pageNumber v <= total ->
    forallb SessionTrace.is_paging es = true ->
    exists s' v',
      SplitViewChat.run K es s = Normal s' /\
      SplitViewChat.pdf s' = Some v' /\
      PDFViewer.numPages v' = Some total /\
      1 <= PDFViewer.pageNumber v' <= total /\
      (SplitViewChat.currentPage s' = PDFViewer.pageNumber v' \/
       (SplitViewChat.currentPage s' = SplitViewChat.currentPage s /\
        PDFViewer.pageNumber v' = PDFViewer.pageNumber v)).
Proof.
  intros K s v total es. revert s v.
  induction es as [|e es IH]; intros s v Hv Hn Hp Hes.
  - exists s, v. repeat split; auto; lia.
  - cbn [forallb] in Hes. apply andb_true_iff in Hes as [He Hes].
    assert (Hf : exists f,
      SplitViewChat.step K s e = Normal (SplitViewChat.inViewer f s) /\
      (f = PDFViewer.goToNextPage \/ f = PDFViewer.goToPrevPage \/
       exists n, f = PDFViewer.onPageInput n)).
    { destruct e; try discriminate He; eexists; (split; [reflexivity|]); eauto. }
    destruct Hf as (f & Hstep & Hf).
    destruct (paging_in_document total v Hn Hp f Hf) as [Hn' Hp'].
    assert (Hv1 : SplitViewChat.pdf (SplitViewChat.inViewer f s) = Some (f v)).
    { unfold SplitViewChat.inViewer. rewrite Hv. now rewrite update_closed. }
    assert (Hc1 : SplitViewChat.currentPage (SplitViewChat.inViewer f s) =
                  if PDFViewer.pageNumber (f v) =? PDFViewer.pageNumber v
                  then SplitViewChat.currentPage s else PDFViewer.pageNumber (f v)).
    { unfold SplitViewChat.inViewer. rewrite Hv. now rewrite update_closed. }
    destruct (IH _ (f v) Hv1 Hn' Hp' Hes) as (s' & v' & Hrun & Hv' & Hn'' & Hp'' & Hc).
    exists s', v'. cbn [SplitViewChat.run]. rewrite Hstep. cbn.
    repeat split; auto; try lia.
    destruct Hc as [Hc|[Hc Hpn]]; [now left|].
    rewrite Hc1 in Hc.
    destruct (Z.eqb_spec (PDFViewer.pageNumber (f v)) (PDFViewer.pageNumber v)) as [E|E].
    + right. split; congruence.
    + left. congruence.
Qed.

Lemma paging_controls_stay_in_document_witness :
  let s := SplitViewChat.setCurrentPage 0 (document_session constants 5) in
  SplitViewChat.currentPage s = 0 /\
  exists s' v',
    SplitViewChat.run constants
      [SplitViewChat.PageInput 12; SplitViewChat.PrevPage; SplitViewChat.NextPage;
       SplitViewChat.PageInput 5; SplitViewChat.NextPage] s = Normal s' /\
    SplitViewChat.pdf s' = Some v' /\
    PDFViewer.numPages v' = Some 5 /\
    1 <= PDFViewer.pageNumber v' <= 5 /\
    (SplitViewChat.currentPage s' = PDFViewer.pageNumber v' \/
     (SplitViewChat.currentPage s' = SplitViewChat.currentPage s /\
      PDFViewer.pageNumber v' = 1)).
Proof.
  cbv zeta. split; [reflexivity|].
  apply (paging_controls_stay_in_document constants
           (SplitViewChat.setCurrentPage 0 (document_session constants 5))
           {| PDFViewer.numPages := Some 5; PDFViewer.pageNumber := 1;
              PDFViewer.loading := false; PDFViewer.error := None |} 5);
    [reflexivity | reflexivity | cbn; lia | reflexivity].
Defined.

(** X7: while the document shows one of its pages, each paging button
    is disabled exactly at its end of the document; an enabled button
    moves the page by exactly one, and the other button then undoes
    it; the handler behind a disabled button would change nothing. *)
Theorem paging_buttons_move_one_page :
  forall (v : PDFViewer.State) (total : Z),
    PDFViewer.numPages v = Some total ->
    1 <= PDFViewer.pageNumber v <= total ->
    PDFToolbar.nextDisabled v = (PDFViewer.pageNumber v =? total) /\
    PDFToolbar.prevDisabled v = (PDFViewer.pageNumber v =? 1) /\
    (if PDFToolbar.nextDisabled v
     then PDFViewer.goToNextPage v = v
     else PDFViewer.pageNumber (PDFViewer.goToNextPage v) = PDFViewer.pageNumber v + 1 /\
          PDFViewer.goToPrevPage (PDFViewer.goToNextPage v) = v) /\
    (if PDFToolbar.prevDisabled v
     then PDFViewer.goToPrevPage v = v
     else PDFViewer.pageNumber (PDFViewer.goToPrevPage v) = PDFViewer.pageNumber v - 1 /\
          PDFViewer.goToNextPage (PDFViewer.goToPrevPage v) = v).
Proof.
  intros [np pn ld er] total Hn Hp. cbn in Hn, Hp. subst np.
  unfold PDFToolbar.nextDisabled, PDFToolbar.prevDisabled,
    PDFViewer.goToNextPage, PDFViewer.goToPrevPage, PDFViewer.setPageNumber.
  cbn [PDFViewer.numPages PDFViewer.pageNumber PDFViewer.toNumber
       PDFViewer.loading PDFViewer.error].
  repeat split.
  - destruct (Z.leb_spec total pn); destruct (Z.eqb_spec pn total); lia.
  - destruct (Z.leb_spec pn 1); destruct (Z.eqb_spec pn 1); lia.
  - destruct (Z.leb_spec total pn).
    + f_equal. lia.
    + split; [lia|]. f_equal. lia.
  - destruct (Z.leb_spec pn 1).
    + f_equal. lia.
    + split; [lia|]. f_equal. lia.
Qed.

Lemma paging_buttons_move_one_page_witness :
  let v := {| PDFViewer.numPages := Some 5; PDFViewer.pageNumber := 3;
              PDFViewer.loading := false; PDFViewer.error := None |} in
  PDFViewer.pageNumber (PDFViewer.goToNextPage v) = 4 /\
  PDFViewer.goToPrevPage (PDFViewer.goToNextPage v) = v.
Proof.
  cbv zeta.
  exact (proj1 (proj2 (proj2 (paging_buttons_move_one_page
    {| PDFViewer.numPages := Some 5; PDFViewer.pageNumber := 3;
       PDFViewer.loading := false; PDFViewer.error := None |} 5 eq_refl
    (conj (Zle_bool_imp_le 1 3 eq_refl) (Zle_bool_imp_le 3 5 eq_refl)))))).
Defined.

Section ReadyFacts.
Import SplitViewChat SessionTrace.
Context (K : Constants).

Lemma step_ready s e s' : ready s -> step K s e = Normal s' -> ready s'.
Proof.
  intros (y & Hy & Hp & Hr) Hs.
  destruct (step_cases K s e) as [H|[[n H]|[(y0 & y' & Hy0 & Hp' & H)|[[_ H]|[f [_ H]]]]]];
    rewrite H in Hs; injection Hs as <-.
  - exists y. auto.
  - destruct (pdf_setCurrentPage n s) as (_ & E1 & E2 & _).
    exists y. rewrite E1, E2. auto.
  - exists y'. cbn. rewrite Hy in Hy0. injection Hy0 as <-.
    repeat split; [congruence | exact Hr].
  - eapply playerReady_ready; eauto.
  - exists y. unfold inViewer. destruct (pdf s); cbn; auto.
Qed.

Lemma step_not_ready s e s' :
  youtubePlayerRef s = None -> is_player_ready e = false ->
  step K s e = Normal s' ->
  youtubePlayerRef s' = None /\ stream_mounted s' = stream_mounted s.
Proof.
  intros Hr He Hs.
  destruct (step_cases K s e) as [H|[[n H]|[(y0 & y' & Hy0 & Hp' & H)|[[E H]|[f [_ H]]]]]];
    rewrite H in Hs; injection Hs as <-.
  - now split.
  - destruct (pdf_setCurrentPage n s) as (_ & E1 & E2 & _).
    unfold stream_mounted. now rewrite E1, E2.
  - unfold stream_mounted. cbn. rewrite Hy0. now split.
  - subst e. discriminate He.
  - unfold inViewer, stream_mounted. destruct (pdf s); cbn; now split.
Qed.

Lemma run_ready es : forall s,
  ready s -> exists s', run K es s = Normal s' /\ ready s'.
Proof. intros s. apply (run_invariant K ready step_ready). Qed.

Lemma run_until_ready es : forall s,
  youtubePlayerRef s = None ->
  exists s', run K es s = Normal s' /\
    if (existsb is_player_ready es && stream_mounted s)%bool
    then ready s' else youtubePlayerRef s' = None.
Proof.
  induction es as [|e es IH]; intros s Hr.
  - exists s. split; [reflexivity|exact Hr].
  - cbn [run existsb]. destruct (is_player_ready e) eqn:He.
    + destruct e; try discriminate He. cbn [step orb].
      change (mret (playerReady s) ≫= run K es) with (run K es (playerReady s)).
      unfold stream_mounted.
      destruct (youtube s) as [y|] eqn:Hy.
      * cbn [andb]. apply run_ready. eapply playerReady_ready; eauto.
      * assert (E : playerReady s = s) by (unfold playerReady; now rewrite Hy).
        rewrite E. destruct (IH s Hr) as (s' & Hrun & Hs').
        exists s'. split; [exact Hrun|].
        unfold stream_mounted in Hs'. rewrite Hy, andb_false_r in Hs'.
        exact Hs'.
    + destruct (session_events_step K s e) as [s1 H1].
      destruct (step_not_ready s e s1 Hr He H1) as [Hr1 Hm1].
      rewrite H1. cbn. cbn [orb]. rewrite <- Hm1. now apply IH.
Qed.

End ReadyFacts.

(** X8: in a freshly opened session the session screen holds the seek
    handle of a ready player exactly from the moment a mounted stream
    viewer has reported ready, and keeps it through every later event;
    before that, and without a stream viewer, it holds none. *)
Theorem seek_handle_present_once_ready :
  forall (K : Constants) (mode : string) (file videoId : bool)
         (es : list SplitViewChat.Event),
    exists s',
      SplitViewChat.run K es (SplitViewChat.mount K mode file videoId) = Normal s' /\
      if (existsb SessionTrace.is_player_ready es
          && SessionTrace.stream_mounted (SplitViewChat.mount K mode file videoId))%bool
      then SplitViewChat.ready s'
      else SplitViewChat.youtubePlayerRef s' = None.
Proof.
  intros K mode file videoId es. now apply run_until_ready.
Qed.

(** ** Further properties of the stream viewer's controls *)

Section StreamFacts.
Import YouTubePlayer StreamControls.

Lemma togglePlay_spec s :
  togglePlay s =
    Normal (match player s with
            | None => s
            | Some _ => if isPlaying s then on_instance yt_pauseVideo s
                        else on_instance yt_playVideo s
            end).
Proof.
  destruct s as [[r|] ip im inst]; unfold togglePlay; cbn; [|reflexivity].
  now destruct ip.
Qed.

Lemma toggleMute_spec s :
  toggleMute s =
    Normal (match player s with
            | None => s
            | Some _ =>
                {| player := player s; isPlaying := isPlaying s;
                   isMuted := negb (isMuted s);
                   instance := yt_setMuted (negb (isMuted s)) (instance s) |}
            end).
Proof.
  destruct s as [[r|] ip im inst]; unfold toggleMute; cbn; [|reflexivity].
  now destruct im.
Qed.

Lemma seekTo_spec r t s :
  seekTo r t s =
    Normal (match r with
            | None => s
            | Some _ => on_instance yt_playVideo (on_instance (yt_seekTo t) s)
            end).
Proof. now destruct r. Qed.

(** The state a step completes with. *)
Lemma stream_step_normal s e : exists s', step s e = Normal s'.
Proof.
  destruct e; cbn [step];
    rewrite ?togglePlay_spec, ?toggleMute_spec, ?seekTo_spec; eauto.
Qed.

Lemma stream_run_invariant (P : State -> Prop) :
  (forall s e s', P s -> step s e = Normal s' -> P s') ->
  forall es s, P s -> exists s', run es s = Normal s' /\ P s'.
Proof.
  intros Hstep es. induction es as [|e es IH]; intros s Hs.
  - exists s. now split.
  - cbn [run]. destruct (stream_step_normal s e) as [s1 H1]. rewrite H1. cbn.
    apply IH. eapply Hstep; eauto.
Qed.

Lemma step_mute_mirror s e s' :
  isMuted s = muted (instance s) -> step s e = Normal s' ->
  isMuted s' = muted (instance s').
Proof.
  intros Hm. destruct e as [t| | |t|]; cbn [step];
    rewrite ?togglePlay_spec, ?toggleMute_spec, ?seekTo_spec; intros [= <-].
  - unfold onReady. destruct (0 <? t); exact Hm.
  - destruct (player s); [|exact Hm]. destruct (isPlaying s); exact Hm.
  - destruct (player s); [reflexivity|exact Hm].
  - destruct (player s); exact Hm.
  - exact Hm.
Qed.

Lemma step_before_ready s e :
  player s = None -> isPlaying s = playing s -> is_ready e = false ->
  step s e = Normal s.
Proof.
  intros Hp Hi He. destruct e as [t| | |t|]; try discriminate He; cbn [step];
    rewrite ?togglePlay_spec, ?toggleMute_spec, ?seekTo_spec, ?Hp; try reflexivity.
  unfold onStateChange. destruct s as [p ip im inst]. cbn in *.
  unfold playing in Hi. cbn in Hi. now rewrite <- Hi.
Qed.

End StreamFacts.

(** X9: under the viewer's own handlers (readiness, play and mute
    toggles, seeks, state reports) no handler throws, and the mute flag
    the viewer displays always equals the mute state of the player. *)
Theorem mute_flag_mirrors_player :
  forall (initialTimestamp : Z) (es : list StreamControls.Event),
    exists s',
      StreamControls.run es (YouTubePlayer.mount initialTimestamp) = Normal s' /\
      YouTubePlayer.isMuted s' = YouTubePlayer.muted (YouTubePlayer.instance s').
Proof.
  intros t es.
  apply (stream_run_invariant
           (fun s => YouTubePlayer.isMuted s = YouTubePlayer.muted (YouTubePlayer.instance s))
           step_mute_mirror).
  reflexivity.
Qed.

(** X10: until the player has reported ready, the play toggle, the mute
    toggle and seeks leave the viewer and the player exactly as
    mounted, and none of them throws. *)
Theorem controls_inert_before_ready :
  forall (initialTimestamp : Z) (es : list StreamControls.Event),
    forallb (fun e => negb (StreamControls.is_ready e)) es = true ->
    StreamControls.run es (YouTubePlayer.mount initialTimestamp) =
      Normal (YouTubePlayer.mount initialTimestamp).
Proof.
  intros t es. induction es as [|e es IH]; intros H; [reflexivity|].
  cbn [forallb] in H. apply andb_true_iff in H as [He H].
  cbn [StreamControls.run]. rewrite step_before_ready; try reflexivity.
  - cbn. now apply IH.
  - now destruct (StreamControls.is_ready e).
Qed.

Lemma controls_inert_before_ready_witness :
  StreamControls.run
    [StreamControls.TogglePlay; StreamControls.Seek 125; StreamControls.ToggleMute;
     StreamControls.StateChange]
    (YouTubePlayer.mount 0) = Normal (YouTubePlayer.mount 0).
Proof.
  apply (controls_inert_before_ready 0
           [StreamControls.TogglePlay; StreamControls.Seek 125;
            StreamControls.ToggleMute; StreamControls.StateChange]).
  reflexivity.
Defined.

(** X11: with a ready player whose play state the viewer has been told,
    one click on the play toggle followed by the player's state report
    flips between playing and not playing and moves neither the
    position nor the mute state; a second click arriving before that
    report only repeats the command of the first. *)
Theorem play_toggle_flips_after_state_report :
  forall s : YouTubePlayer.State,
    YouTubePlayer.player s = Some YouTubePlayer.event_target ->
    YouTubePlayer.isPlaying s = StreamControls.playing s ->
    (exists s',
       StreamControls.run [StreamControls.TogglePlay; StreamControls.StateChange] s
         = Normal s' /\
       StreamControls.playing s' = negb (StreamControls.playing s) /\
       YouTubePlayer.isPlaying s' = StreamControls.playing s' /\
       YouTubePlayer.position (YouTubePlayer.instance s') =
         YouTubePlayer.position (YouTubePlayer.instance s) /\
       YouTubePlayer.muted (YouTubePlayer.instance s') =
         YouTubePlayer.muted (YouTubePlayer.instance s)) /\
    StreamControls.run [StreamControls.TogglePlay; StreamControls.TogglePlay] s =
      StreamControls.run [StreamControls.TogglePlay] s.
Proof.
  intros [p ip im [pos st mu]] Hp Hi. cbn in Hp, Hi. subst p.
  unfold StreamControls.playing in Hi. cbn in Hi. subst ip.
  split.
  - destruct st; cbn; eexists; repeat split.
  - destruct st; reflexivity.
Qed.

Lemma play_toggle_flips_after_state_report_witness :
  let s := YouTubePlayer.onReady 0 (YouTubePlayer.mount 0) in
  StreamControls.run [StreamControls.TogglePlay; StreamControls.TogglePlay] s =
    StreamControls.run [StreamControls.TogglePlay] s.
Proof.
  cbv zeta.
  exact (proj2 (play_toggle_flips_after_state_report
                  (YouTubePlayer.onReady 0 (YouTubePlayer.mount 0)) eq_refl eq_refl)).
Defined.

(** ** Further properties of the split surface *)

Section SplitTraceFacts.
Import SplitView SplitViewTrace.
Context (p : Props).

Lemma idle_without_down es : forall s,
  isDragging s = false -> forallb (fun e => negb (is_down e)) es = true ->
  run p es s = s.
Proof.
  induction es as [|e es IH]; intros s Hs H; [reflexivity|].
  cbn [forallb] in H. apply andb_true_iff in H as [He H].
  cbn [run fold_left].
  assert (E : step p s e = s).
  { destruct e; try discriminate He; cbn; now rewrite Hs. }
  rewrite E. now apply IH.
Qed.

Lemma run_split_app es1 es2 s : run p (es1 ++ es2) s = run p es2 (run p es1 s).
Proof. apply fold_left_app. Qed.

Lemma after_mouse_up s :
  isDragging (step p s MouseUp) = false /\
  leftWidth (step p s MouseUp) = leftWidth s.
Proof. cbn. destruct (isDragging s) eqn:E; cbn; auto. Qed.

End SplitTraceFacts.

(** X12: a pointer-up, wherever the drag stands, leaves the split
    surface idle with the width it had; from then on pointer moves and
    further pointer-ups change nothing until the next pointer-down on
    the divider. *)
Theorem pointer_up_ends_drag :
  forall (p : SplitView.Props) (es rest : list SplitView.Event) (s : SplitView.State),
    forallb (fun e => negb (SplitViewTrace.is_down e)) rest = true ->
    SplitView.run p (es ++ SplitView.MouseUp :: rest) s =
      SplitView.run p (es ++ [SplitView.MouseUp]) s /\
    SplitView.isDragging (SplitView.run p (es ++ [SplitView.MouseUp]) s) = false /\
    SplitView.leftWidth (SplitView.run p (es ++ [SplitView.MouseUp]) s) =
      SplitView.leftWidth (SplitView.run p es s).
Proof.
  intros p es rest s H.
  rewrite !run_split_app.
  change (SplitView.run p [SplitView.MouseUp] (SplitView.run p es s))
    with (SplitView.step p (SplitView.run p es s) SplitView.MouseUp).
  change (SplitView.run p (SplitView.MouseUp :: rest) (SplitView.run p es s))
    with (SplitView.run p rest (SplitView.step p (SplitView.run p es s) SplitView.MouseUp)).
  destruct (after_mouse_up p (SplitView.run p es s)) as [Hd Hw].
  repeat split; auto. now apply idle_without_down.
Qed.

Lemma pointer_up_ends_drag_witness :
  SplitView.run C9_props
    ([SplitView.MouseDown;
      SplitView.MouseMove 400 (Some {| SplitView.left := 0; SplitView.width := 1000 |})]
     ++ SplitView.MouseUp ::
     [SplitView.MouseMove 600 (Some {| SplitView.left := 0; SplitView.width := 1000 |});
      SplitView.MouseUp])%float (SplitView.mount C9_props) =
  SplitView.run C9_props
    ([SplitView.MouseDown;
      SplitView.MouseMove 400 (Some {| SplitView.left := 0; SplitView.width := 1000 |})]
     ++ [SplitView.MouseUp])%float (SplitView.mount C9_props).
Proof.
  apply (pointer_up_ends_drag C9_props
    [SplitView.MouseDown;
     SplitView.MouseMove 400 (Some {| SplitView.left := 0; SplitView.width := 1000 |})]%float
    [SplitView.MouseMove 600 (Some {| SplitView.left := 0; SplitView.width := 1000 |});
     SplitView.MouseUp]%float (SplitView.mount C9_props) eq_refl).
Defined.

(** ** Further properties of the bookmark store *)

Section BookmarkOpsFacts.
Import BookmarkContext BookmarkOps.

Lemma remove_absent i st : isBookmarked i st = false -> removeBookmark i st = st.
Proof.
  unfold isBookmarked, removeBookmark. induction st as [|b st IH]; cbn; [reflexivity|].
  destruct (has_id i b); cbn; [discriminate|]. intros H. now rewrite IH.
Qed.

Lemma remove_app i st st' :
  removeBookmark i (st ++ st') = removeBookmark i st ++ removeBookmark i st'.
Proof. apply List.filter_app. Qed.

Lemma remove_ids_sublist i st :
  sublist (bookmark_ids (removeBookmark i st)) (bookmark_ids st).
Proof.
  unfold removeBookmark, bookmark_ids. induction st as [|b st IH]; cbn; [constructor|].
  destruct (negb (has_id i b)); cbn; now constructor.
Qed.

Lemma apply_NoDup st o : NoDup (bookmark_ids st) -> NoDup (bookmark_ids (apply st o)).
Proof.
  intros H. destruct o as [now m|i| |now m]; cbn [apply].
  - now apply add_ids.
  - eapply sublist_NoDup; [exact H | apply remove_ids_sublist].
  - constructor.
  - unfold handleClick. destruct (isBookmarked (id m) st).
    + eapply sublist_NoDup; [exact H | apply remove_ids_sublist].
    + now apply add_ids.
Qed.

Lemma filter_count i st :
  NoDup (bookmark_ids st) ->
  length (List.filter (has_id i) st) = if isBookmarked i st then 1%nat else 0%nat.
Proof.
  unfold isBookmarked. induction st as [|b st IH]; cbn; [reflexivity|].
  intros H. apply NoDup_cons in H as [Hb H].
  destruct (has_id i b) eqn:E; cbn.
  - unfold has_id in E. apply Z.eqb_eq in E.
    assert (Hn : existsb (has_id i) st = false).
    { destruct (existsb (has_id i) st) eqn:Hx; [|reflexivity].
      apply (isBookmarked_elem i st) in Hx. subst i. contradiction. }
    rewrite (filter_not_bookmarked i st Hn). reflexivity.
  - now apply IH.
Qed.

End BookmarkOpsFacts.

(** X13: removing the id of a message that is not bookmarked leaves the
    store exactly as it is, and removing it right after adding the
    message gives back the store from before the add, every other
    bookmark in place. *)
Theorem remove_undoes_add :
  forall (now : Z) (m : Message) (st : list BookmarkContext.Bookmark),
    BookmarkContext.isBookmarked (id m) st = false ->
    BookmarkContext.removeBookmark (id m) st = st /\
    BookmarkContext.removeBookmark (id m) (BookmarkContext.addBookmark now m st) = st.
Proof.
  intros now m st H. split; [now apply remove_absent|].
  unfold BookmarkContext.addBookmark.
  change (existsb (BookmarkContext.has_id (id m)) st)
    with (BookmarkContext.isBookmarked (id m) st).
  rewrite H, remove_app, remove_absent by exact H.
  cbn. unfold BookmarkContext.has_id. cbn. rewrite Z.eqb_refl. cbn.
  apply app_nil_r.
Qed.

Lemma remove_undoes_add_witness :
  let m := ChatContainer.botMessage 1500 "What is RAG?" "Retrieval." None in
  let st := BookmarkContext.addBookmark 900
              (ChatContainer.errorMessage 700 "Network Error") [] in
  BookmarkContext.isBookmarked (id m) st = false /\
  BookmarkContext.removeBookmark (id m) (BookmarkContext.addBookmark 2000 m st) = st.
Proof.
  cbv zeta. split; [reflexivity|].
  exact (proj2 (remove_undoes_add 2000
    (ChatContainer.botMessage 1500 "What is RAG?" "Retrieval." None)
    (BookmarkContext.addBookmark 900 (ChatContainer.errorMessage 700 "Network Error") [])
    eq_refl)).
Defined.

(** X14: whatever adds, removes, button clicks and clears are applied
    to an empty store, it never holds two bookmarks with the same
    message id: under each id there is one bookmark if the id is
    bookmarked and none otherwise. *)
Theorem store_has_one_bookmark_per_id :
  forall (ops : list BookmarkOps.Op) (i : Z),
    let st := BookmarkOps.run ops [] in
    NoDup (BookmarkContext.bookmark_ids st) /\
    length (List.filter (BookmarkContext.has_id i) st) =
      if BookmarkContext.isBookmarked i st then 1%nat else 0%nat.
Proof.
  intros ops i st.
  assert (H : NoDup (BookmarkContext.bookmark_ids st)).
  { subst st. unfold BookmarkOps.run.
    assert (G : forall ops st0, NoDup (BookmarkContext.bookmark_ids st0) ->
              NoDup (BookmarkContext.bookmark_ids (fold_left BookmarkOps.apply ops st0))).
    { clear. induction ops as [|o ops IH]; intros st0 H0; [exact H0|].
      cbn [fold_left]. apply IH. now apply apply_NoDup. }
    apply G. constructor. }
  split; [exact H | now apply filter_count].
Qed.

(** ** Properties of the question box *)

Section ChatInputFacts.
Import ChatContainer ChatInput.
Context (trim : string -> string).

Lemma asks_loading l : forall s,
  loading (asks l s) = match l with [] => loading s | _ :: _ => false end.
Proof.
  induction l as [|a l IH]; intros s; [reflexivity|].
  cbn [asks fold_left].
  change (fold_left (fun s0 a0 => handleSend a0 s0) l (handleSend a s))
    with (asks l (handleSend a s)).
  rewrite IH. now destruct l.
Qed.

Lemma asks_snoc l a s : asks (l ++ [a]) s = handleSend a (asks l s).
Proof. unfold asks. now rewrite fold_left_app. Qed.

Lemma truthy_nonempty x : truthy x = true -> x <> ""%string.
Proof. destruct x; [discriminate | discriminate]. Qed.

Lemma submit_in_step now s : in_step trim s -> in_step trim (handleSubmit trim now s).
Proof.
  intros (done & Hd & Hs). unfold handleSubmit.
  destruct (truthy (trim (input s))) eqn:Ht; cbn [andb]; [|exists done; auto].
  destruct (loading (chat s)) eqn:Hl; cbn [negb]; [exists done; auto|].
  destruct (awaiting s) as [|q rest] eqn:Ha.
  - exists done. split; [exact Hd|]. cbn [awaiting app].
    split; [reflexivity|]. split.
    + split; [now apply truthy_nonempty | now exists (input s)].
    + exists now. cbn [chat]. now rewrite Hs.
  - destruct Hs as (_ & _ & t & Hc). rewrite Hc in Hl. discriminate Hl.
Qed.

Lemma step_in_step s e : in_step trim s -> in_step trim (step trim s e).
Proof.
  intros H. destruct e as [value|now|key shift now|now o]; cbn [step].
  - destruct H as (done & Hd & Hs). exists done. split; [exact Hd|exact Hs].
  - now apply submit_in_step.
  - unfold handleKeyDown. destruct (_ && _)%bool; [now apply submit_in_step|exact H].
  - destruct H as (done & Hd & Hs). unfold settle.
    destruct (awaiting s) as [|q rest] eqn:Ha.
    + exists done. rewrite Ha. auto.
    + destruct Hs as (-> & Hq & t & Hc).
      exists (done ++ [{| sentAt := t; settledAt := now; asked := q; outcome := o |}]).
      split.
      * apply Forall_app. split; [exact Hd|]. now constructor.
      * cbn [awaiting chat]. rewrite asks_snoc, Hc. reflexivity.
Qed.

Lemma run_in_step es : forall s, in_step trim s -> in_step trim (run trim es s).
Proof.
  induction es as [|e es IH]; intros s H; [exact H|].
  cbn [run fold_left]. apply IH. now apply step_in_step.
Qed.

Lemma mount_in_step : in_step trim ChatInput.mount.
Proof. exists []. split; [constructor|reflexivity]. Qed.

End ChatInputFacts.

(** X15: however the user types, submits (button or Enter) and however
    the service calls settle, asks sent through the question box never
    overlap: the transcript is always a sequence of complete
    question/reply pairs, each question trimmed and not empty, followed
    by the user message of the one ask in flight exactly when the
    loading flag is set. *)
Theorem asks_through_the_box_never_overlap :
  forall (trim : string -> string) (es : list ChatInput.Event),
    let s := ChatInput.run trim es ChatInput.mount in
    exists done : list ChatContainer.Ask,
      Forall (fun a => ChatInput.sendable trim (ChatContainer.asked a)) done /\
      match ChatInput.awaiting s with
      | [] =>
          ChatContainer.loading (ChatInput.chat s) = false /\
          ChatInput.chat s = ChatContainer.asks done ChatContainer.mount /\
          ChatContainer.messages (ChatInput.chat s) =
            flat_map ChatContainer.exchange done
      | q :: rest =>
          rest = [] /\ ChatInput.sendable trim q /\
          ChatContainer.loading (ChatInput.chat s) = true /\
          exists t,
            ChatContainer.messages (ChatInput.chat s) =
              flat_map ChatContainer.exchange done ++ [ChatContainer.userMessage t q]
      end.
Proof.
  intros trim es s.
  destruct (run_in_step trim es _ (mount_in_step trim)) as (done & Hd & Hs).
  fold s in Hs. exists done. split; [exact Hd|].
  destruct (ChatInput.awaiting s) as [|q rest].
  - rewrite Hs. split; [|split; [reflexivity|]].
    + rewrite asks_loading. now destruct done.
    + now rewrite asks_messages.
  - destruct Hs as (Hr & Hq & t & Hc). repeat split; auto.
    + exact (proj1 Hq).
    + exact (proj2 Hq).
    + now rewrite Hc.
    + exists t. rewrite Hc. cbn. now rewrite asks_messages.
Qed.

(** ** Properties of bookmark navigation in the transcript *)

Section TranscriptViewFacts.
Import TranscriptView.

Lemma elementId_inj i j : elementId i = elementId j -> i = j.
Proof.
  unfold elementId. intros H. apply (inj (String.app "message-")) in H.
  now apply (inj pretty) in H.
Qed.

(** Looking an element up by its id attribute finds the first message
    with that message id. *)
Lemma getElementById_first i s :
  getElementById (elementId i) s = first_with_id i (rendered s).
Proof.
  unfold getElementById, first_with_id. f_equal.
  apply list_find_ext. intros m. split; [apply elementId_inj | now intros ->].
Qed.

Lemma first_with_id_Some i l k :
  first_with_id i l = Some k <->
  exists m, l !! k = Some m /\ id m = i /\
    forall j m', l !! j = Some m' -> (j < k)%nat -> id m' <> i.
Proof.
  unfold first_with_id. rewrite fmap_Some. split.
  - intros ([k' m] & Hf & ->). apply list_find_Some in Hf. cbn. eauto.
  - intros (m & H). exists (k, m). split; [|reflexivity]. now apply list_find_Some.
Qed.

Lemma first_with_id_None i l :
  first_with_id i l = None <-> i ∉ map id l.
Proof.
  unfold first_with_id. rewrite fmap_None, list_find_None, Forall_forall.
  rewrite list_elem_of_fmap. split.
  - intros H (m & -> & Hm). now apply (H m).
  - intros H m Hm E. apply H. exists m. auto.
Qed.

Lemma step_timers_cover s e : timers_cover s -> timers_cover (step s e).
Proof.
  unfold timers_cover. intros H.
  assert (Hscroll : forall i k, k ∈ ringed (scrollToMessage i s) ->
                                k ∈ timers (scrollToMessage i s)).
  { intros i k. unfold scrollToMessage.
    destruct (getElementById (elementId i) s) as [k0|]; cbn; [|apply H].
    rewrite elem_of_union, elem_of_singleton, elem_of_app, list_elem_of_singleton.
    intros [->|Hk]; auto. }
  destruct e as [| |b| |m]; cbn [step]; try exact H.
  - unfold entryClick. destruct (bookmarksPanelOpen s); [|exact H].
    cbn. apply Hscroll.
  - unfold timeout. destruct (timers s) as [|k0 rest] eqn:Ht.
    + intros k Hk. rewrite Ht. now apply H.
    + cbn. intros k. rewrite elem_of_difference, elem_of_singleton.
      intros [Hk Hne]. specialize (H k Hk).
      apply elem_of_cons in H as [->|H]; [contradiction|exact H].
Qed.

Lemma run_timers_cover es : forall s, timers_cover s -> timers_cover (run es s).
Proof.
  induction es as [|e es IH]; intros s H; [exact H|].
  cbn [run fold_left]. apply IH. now apply step_timers_cover.
Qed.

Lemma all_timeouts_clear : forall n s,
  timers_cover s -> n = length (timers s) ->
  ringed (run (replicate n Timeout) s) = ∅ /\
  timers (run (replicate n Timeout) s) = [].
Proof.
  induction n as [|n IH]; intros s H Hn.
  - destruct (timers s) as [|k rest] eqn:Ht; [|discriminate Hn].
    cbn. split; [|exact Ht].
    apply set_eq. intros k. split; [|intros Hk; now apply not_elem_of_empty in Hk].
    intros Hk. apply H in Hk. rewrite Ht in Hk. inversion Hk.
  - cbn [replicate run fold_left].
    change (fold_left step (replicate n Timeout) (step s Timeout))
      with (run (replicate n Timeout) (step s Timeout)).
    apply IH; [now apply step_timers_cover|].
    cbn [step]. unfold timeout. destruct (timers s) as [|k rest]; [discriminate Hn|].
    cbn. cbn in Hn. lia.
Qed.

End TranscriptViewFacts.

(** X16: bookmark navigation looks the message up by the id attribute
    of its element and so reaches the first message of the transcript
    with the bookmarked id: that element is scrolled into view and
    highlighted, with a removal timer set; when no message has the id,
    nothing changes at all. *)
Theorem bookmark_navigation_targets_first_message :
  forall (i : Z) (s : TranscriptView.State),
    match TranscriptView.first_with_id i (TranscriptView.rendered s) with
    | Some k =>
        (exists m, TranscriptView.rendered s !! k = Some m /\ id m = i /\
           forall j m', TranscriptView.rendered s !! j = Some m' -> (j < k)%nat ->
                        id m' <> i) /\
        TranscriptView.scrollToMessage i s =
          {| TranscriptView.rendered := TranscriptView.rendered s;
             TranscriptView.bookmarksPanelOpen := TranscriptView.bookmarksPanelOpen s;
             TranscriptView.ringed := {[ k ]} ∪ TranscriptView.ringed s;
             TranscriptView.timers := TranscriptView.timers s ++ [k];
             TranscriptView.scrolledTo := Some k |}
    | None =>
        (i ∉ map id (TranscriptView.rendered s)) /\
        TranscriptView.scrollToMessage i s = s
    end.
Proof.
  intros i s. unfold TranscriptView.scrollToMessage.
  rewrite getElementById_first.
  destruct (TranscriptView.first_with_id i (TranscriptView.rendered s)) as [k|] eqn:E.
  - split; [now apply first_with_id_Some | reflexivity].
  - split; [now apply first_with_id_None | reflexivity].
Qed.

(** X17: whatever panel clicks, bookmark navigations, timers and new
    messages occur, every highlighted message has a removal timer
    pending, so once the pending timers have all fired no message is
    highlighted and no timer is left. *)
Theorem highlight_is_transient :
  forall (messages : list Message) (es : list TranscriptView.Event),
    let s := TranscriptView.run es (TranscriptView.mount messages) in
    let s' := TranscriptView.run
                (replicate (length (TranscriptView.timers s)) TranscriptView.Timeout) s in
    TranscriptView.timers_cover s /\
    TranscriptView.ringed s' = ∅ /\
    TranscriptView.timers s' = [].
Proof.
  intros messages es s s'.
  assert (H : TranscriptView.timers_cover s).
  { apply run_timers_cover. intros k Hk. cbn in Hk. now apply not_elem_of_empty in Hk. }
  split; [exact H|]. now apply all_timeouts_clear.
Qed.

(** ** Properties of the upload screen *)

Section UploadFacts.
Import Upload.
Context (trim : string -> string) (K : Constants) (MAX_PDF_SIZE_MB : Z).

Lemma mount_sound : sound K MAX_PDF_SIZE_MB Upload.mount.
Proof.
  unfold sound. cbn. repeat split; auto; try easy.
Qed.

Lemma idle_progress s :
  sound K MAX_PDF_SIZE_MB s -> uploading s = false ->
  inflight s = [] /\ progress s = 0.
Proof.
  intros (_ & Hu & Hp & _) Eu.
  assert (Hi : inflight s = []).
  { destruct (inflight s) eqn:Ei; [reflexivity|].
    assert (uploading s = true) by (apply Hu; congruence). congruence. }
  split; [exact Hi|]. destruct Hp as [Hp|[f Hf]]; [exact Hp|congruence].
Qed.

(** With a call awaited there is exactly one, and [uploading] is on. *)
Lemma busy_single s r rest :
  sound K MAX_PDF_SIZE_MB s -> inflight s = r :: rest ->
  rest = [] /\ uploading s = true /\ request_ok MAX_PDF_SIZE_MB r.
Proof.
  intros (Hl & Hu & _ & Hr & _) Ei. rewrite Ei in Hl, Hr. cbn in Hl.
  split; [destruct rest; [reflexivity | cbn in Hl; lia]|].
  split; [apply Hu; congruence | now apply Forall_cons in Hr as [Hr _]].
Qed.

Lemma step_sound s e :
  sound K MAX_PDF_SIZE_MB s -> sound K MAX_PDF_SIZE_MB (step trim K MAX_PDF_SIZE_MB s e).
Proof.
  intros Hsound. pose proof Hsound as (Hl & Hu & Hp & Hr & Hs & Ho).
  destruct e as [tab|[f|]|value|percent|r|e|]; cbn [step].
  - exact Hsound.
  - destruct (uploading s) eqn:Eu; [exact Hsound|].
    destruct (idle_progress s Hsound Eu) as [Hi Hp0].
    unfold handlePDFUpload. destruct (Z.ltb_spec (limit MAX_PDF_SIZE_MB) (size f)).
    + unfold sound. cbn. rewrite Eu. repeat split; auto; apply Hu.
    + unfold sound. cbn. rewrite Hi. cbn. repeat split; auto; try easy.
      all: try (constructor; [exact H | constructor]).
  - now destruct (uploading s).
  - destruct (uploading s) eqn:Eu; [exact Hsound|].
    destruct (idle_progress s Hsound Eu) as [Hi Hp0].
    unfold handleYouTubeUpload. destruct (trim value) as [|c u] eqn:Et; [exact Hsound|].
    unfold sound. cbn. rewrite Hi. cbn. repeat split; auto; try easy.
    all: try (constructor; [cbn; discriminate | constructor]).
  - destruct (existsb is_pdf_request (inflight s)) eqn:Ex; [|exact Hsound].
    destruct (inflight s) as [|q rest] eqn:Ei; [discriminate Ex|].
    destruct (busy_single s q rest Hsound Ei) as (-> & _ & _).
    cbn in Ex. rewrite orb_false_r in Ex. destruct q as [f|url]; [|discriminate Ex].
    unfold sound. cbn. rewrite Ei. repeat split; eauto; apply Hu.
  - unfold resolved. destruct (inflight s) as [|q rest] eqn:Ei; [exact Hsound|].
    destruct (busy_single s q rest Hsound Ei) as (-> & _ & Hq).
    destruct q as [f|url].
    + unfold sound. cbn. repeat split; auto; try easy.
      apply Forall_app. split; [exact Hs|]. constructor; [|constructor].
      left. exists f. repeat split. exact Hq.
    + unfold sound. cbn. repeat split; auto; try easy.
      * destruct Hp as [Hp|[f Hf]]; [now left|congruence].
      * apply Forall_app. split; [exact Hs|]. constructor; [|constructor].
        right. exists (video_id r). repeat split.
  - unfold rejected. destruct (inflight s) as [|q rest] eqn:Ei; [exact Hsound|].
    destruct (busy_single s q rest Hsound Ei) as (-> & _ & Hq).
    destruct q as [f|url].
    + unfold sound. cbn. repeat split; auto; try easy.
    + unfold sound. cbn. repeat split; auto; try easy.
      destruct Hp as [Hp|[f Hf]]; [now left|congruence].
  - unfold navigate. destruct (scheduled s) as [|t rest] eqn:Es; [exact Hsound|].
    apply Forall_cons in Hs as [Ht Hs].
    unfold sound. cbn. repeat split; auto; try apply Hu.
    intros t' [= <-]. exact Ht.
Qed.

(** The handler itself does not look at [uploading]: called twice it
    leaves two uploads awaited.  Only the disabled inputs keep a second
    call away. *)
Lemma handlePDFUpload_unguarded f s :
  size f <= limit MAX_PDF_SIZE_MB ->
  inflight (handlePDFUpload MAX_PDF_SIZE_MB (Some f)
              (handlePDFUpload MAX_PDF_SIZE_MB (Some f) s)) =
    inflight s ++ [PdfRequest f; PdfRequest f].
Proof.
  intros H. unfold handlePDFUpload.
  destruct (Z.ltb_spec (limit MAX_PDF_SIZE_MB) (size f)); [lia|].
  cbn. now rewrite <- app_assoc.
Qed.

Lemma run_sound es : forall s,
  sound K MAX_PDF_SIZE_MB s -> sound K MAX_PDF_SIZE_MB (run trim K MAX_PDF_SIZE_MB es s).
Proof.
  induction es as [|e es IH]; intros s H; [exact H|].
  cbn [run fold_left]. apply IH. now apply step_sound.
Qed.

End UploadFacts.

(** X18: whatever files are picked, URLs submitted, progress reported
    and however the calls settle, the upload screen never has two
    uploads in flight; [uploading] is on exactly while one is, and
    while it is off the progress shown is 0; the upload in flight is
    never that of a file above the size limit or of a URL that is empty
    after trimming; and navigation to the chat is only scheduled or
    made with an accepted file in document mode or a video id in stream
    mode. *)
Theorem upload_screen_stays_sound :
  forall (trim : string -> string) (K : Constants) (MAX_PDF_SIZE_MB : Z)
         (es : list Upload.Event),
    let s := Upload.run trim K MAX_PDF_SIZE_MB es Upload.mount in
    Upload.sound K MAX_PDF_SIZE_MB s /\
    (Upload.uploading s = false ->
       Upload.inflight s = [] /\ Upload.progress s = 0).
Proof.
  intros trim K MAX es s.
  assert (H : Upload.sound K MAX s) by (apply run_sound, mount_sound).
  split; [exact H | exact (idle_progress K MAX s H)].
Qed.

(** X19: every chat session the upload screen opens mounts exactly the
    viewer of what was uploaded: the document viewer alone for a file,
    and for a video the stream viewer alone, unless the service
    returned an empty video id, in which case no viewer is mounted. *)
Theorem upload_opens_matching_viewer :
  forall (trim : string -> string) (K : Constants) (MAX_PDF_SIZE_MB : Z)
         (es : list Upload.Event) (t : Upload.Target),
    SPLIT_VIEW_MODES_PDF K <> SPLIT_VIEW_MODES_YOUTUBE K ->
    Upload.opened (Upload.run trim K MAX_PDF_SIZE_MB es Upload.mount) = Some t ->
    let session := Upload.session_of K t in
    match Upload.file t, Upload.videoId t with
    | Some _, _ =>
        SplitViewChat.pdf session = Some (PDFViewer.view (PDFViewer.mount 1)) /\
        SplitViewChat.youtube session = None
    | None, Some (String _ _) =>
        SplitViewChat.pdf session = None /\
        SplitViewChat.youtube session = Some (YouTubePlayer.mount 0)
    | None, _ =>
        SplitViewChat.pdf session = None /\ SplitViewChat.youtube session = None
    end.
Proof.
  intros trim K MAX es t Hne Ho session.
  assert (H : Upload.sound K MAX (Upload.run trim K MAX es Upload.mount))
    by (apply run_sound, mount_sound).
  destruct H as (_ & _ & _ & _ & _ & H). specialize (H t Ho).
  subst session. unfold Upload.session_of, SplitViewChat.mount.
  destruct H as [(f & Hf & _ & Hv & Hm)|(v & Hf & Hv & Hm)]; rewrite Hf, Hv, Hm.
  - rewrite String.eqb_refl. cbn. split; reflexivity.
  - apply not_eq_sym, String.eqb_neq in Hne. rewrite Hne, String.eqb_refl. cbn.
    destruct v; split; reflexivity.
Qed.

Lemma upload_opens_matching_viewer_witness :
  let f := {| Upload.name := "a.pdf"; Upload.size := 2048 |} in
  let r := {| Upload.message := "ok"; Upload.filename := "a.pdf"; Upload.video_id := "";
              Upload.video_title := ""; Upload.total_chunks := 3 |} in
  let es := [Upload.FilePicked (Some f); Upload.Progress 40; Upload.Resolved r;
             Upload.TimerFired] in
  let t := {| Upload.file := Some f; Upload.videoId := None; Upload.mode := "pdf" |} in
  Upload.opened (Upload.run (fun x => x) constants 10 es Upload.mount) = Some t /\
  SplitViewChat.pdf (Upload.session_of constants t) =
    Some (PDFViewer.view (PDFViewer.mount 1)) /\
  SplitViewChat.youtube (Upload.session_of constants t) = None.
Proof.
  cbv zeta. split; [reflexivity|].
  apply (upload_opens_matching_viewer (fun x => x) constants 10
    [Upload.FilePicked (Some {| Upload.name := "a.pdf"; Upload.size := 2048 |});
     Upload.Progress 40;
     Upload.Resolved {| Upload.message := "ok"; Upload.filename := "a.pdf";
                        Upload.video_id := ""; Upload.video_title := "";
                        Upload.total_chunks := 3 |};
     Upload.TimerFired]
    {| Upload.file := Some {| Upload.name := "a.pdf"; Upload.size := 2048 |};
       Upload.videoId := None; Upload.mode := "pdf" |});
    [discriminate | reflexivity].
Defined.

(** ** Further properties of navigation and of the bookmark list *)

Section MoreSessionFacts.
Import SplitViewChat SessionTrace.
Context (K : Constants).

Lemma step_mode s e s' : step K s e = Normal s' -> mode s' = mode s.
Proof.
  intros Hs.
  destruct (step_cases K s e) as [H|[[n H]|[(y & y' & _ & _ & H)|[[_ H]|[f [_ H]]]]]];
    rewrite H in Hs; injection Hs as <-; try reflexivity.
  - apply pdf_setCurrentPage.
  - unfold playerReady. now destruct (youtube s).
  - unfold inViewer. now destruct (pdf s).
Qed.

Lemma click_youtube_card card s :
  SOURCE_TYPES_PDF K <> SOURCE_TYPES_YOUTUBE K ->
  type card = SOURCE_TYPES_YOUTUBE K ->
  mode s = SPLIT_VIEW_MODES_YOUTUBE K -> ready s ->
  exists y,
    youtube s = Some y /\
    handleClick K card s =
      Normal (with_youtube
                (Some (YouTubePlayer.on_instance YouTubePlayer.yt_playVideo
                         (YouTubePlayer.on_instance
                            (YouTubePlayer.yt_seekTo (timestamp card)) y))) s).
Proof.
  intros Hne Ht Hm (y & Hy & Hp & Hr). exists y. split; [exact Hy|].
  unfold handleClick. rewrite Ht.
  apply not_eq_sym, String.eqb_neq in Hne. rewrite Hne, String.eqb_refl.
  rewrite navigate_youtube by (auto; reflexivity). rewrite Hr.
  unfold call_seekTo. rewrite Hy. reflexivity.
Qed.

End MoreSessionFacts.

(** X20: in a stream session whose player has reported ready at some
    point, after any history of events the click on a stream source
    card moves the player to the timestamp of that card and sets it
    playing; it does not throw. *)
Theorem stream_click_seeks_after_any_history :
  forall (K : Constants) (es : list SplitViewChat.Event) (card : Source),
    SOURCE_TYPES_PDF K <> SOURCE_TYPES_YOUTUBE K ->
    existsb SessionTrace.is_player_ready es = true ->
    type card = SOURCE_TYPES_YOUTUBE K ->
    exists s' y',
      SplitViewChat.run K (es ++ [SplitViewChat.SourceClick card])
        (SplitViewChat.mount K (SPLIT_VIEW_MODES_YOUTUBE K) false true) = Normal s' /\
      SplitViewChat.youtube s' = Some y' /\
      YouTubePlayer.position (YouTubePlayer.instance y') = timestamp card /\
      YouTubePlayer.playerState (YouTubePlayer.instance y') = YouTubePlayer.PLAYING.
Proof.
  intros K es card Hne Hes Ht.
  set (s0 := SplitViewChat.mount K (SPLIT_VIEW_MODES_YOUTUBE K) false true).
  destruct (run_until_ready K es s0 eq_refl) as (s & Hrun & Hs).
  assert (Hm0 : SessionTrace.stream_mounted s0 = true).
  { unfold s0, SessionTrace.stream_mounted, SplitViewChat.mount.
    rewrite andb_false_r, String.eqb_refl. reflexivity. }
  rewrite Hes, Hm0 in Hs. cbn [andb] in Hs.
  assert (Hmode : SplitViewChat.mode s = SPLIT_VIEW_MODES_YOUTUBE K).
  { destruct (run_invariant K
                (fun s => SplitViewChat.mode s = SPLIT_VIEW_MODES_YOUTUBE K)) with
      (es := es) (s := s0) as (s1 & H1 & Hm1).
    - intros a e a' Ha Hstep. rewrite (step_mode K a e a' Hstep). exact Ha.
    - reflexivity.
    - congruence. }
  destruct (click_youtube_card K card s Hne Ht Hmode Hs) as (y & Hy & Hclick).
  rewrite run_app, Hrun. cbn. rewrite Hclick. cbn.
  eexists. eexists. split; [reflexivity|]. cbn. repeat split.
Qed.

Lemma stream_click_seeks_after_any_history_witness :
  exists s' y',
    SplitViewChat.run constants
      ([SplitViewChat.SourceClick (youtube_citation 30); SplitViewChat.PlayerReady;
        SplitViewChat.SourceClick (pdf_citation 4)]
       ++ [SplitViewChat.SourceClick (youtube_citation 125)])
      (SplitViewChat.mount constants (SPLIT_VIEW_MODES_YOUTUBE constants) false true)
      = Normal s' /\
    SplitViewChat.youtube s' = Some y' /\
    YouTubePlayer.position (YouTubePlayer.instance y') = timestamp (youtube_citation 125) /\
    YouTubePlayer.playerState (YouTubePlayer.instance y') = YouTubePlayer.PLAYING.
Proof.
  apply (stream_click_seeks_after_any_history constants
    [SplitViewChat.SourceClick (youtube_citation 30); SplitViewChat.PlayerReady;
     SplitViewChat.SourceClick (pdf_citation 4)] (youtube_citation 125));
    [discriminate | reflexivity | reflexivity].
Defined.

(** X21: a navigation never throws and touches at most one viewer: it
    keeps the mode and the seek handle of the session, and leaves
    either the page side (viewer and page of the session screen) or the
    stream side as it was. *)
Theorem navigation_touches_one_viewer :
  forall (K : Constants) (source : Source) (s : SplitViewChat.Session),
    exists s',
      SplitViewChat.handleSourceNavigate K source s = Normal s' /\
      SplitViewChat.mode s' = SplitViewChat.mode s /\
      SplitViewChat.youtubePlayerRef s' = SplitViewChat.youtubePlayerRef s /\
      SplitViewChat.currentTimestamp s' = SplitViewChat.currentTimestamp s /\
      ((SplitViewChat.pdf s' = SplitViewChat.pdf s /\
        SplitViewChat.currentPage s' = SplitViewChat.currentPage s) \/
       SplitViewChat.youtube s' = SplitViewChat.youtube s).
Proof.
  intros K source s.
  destruct (navigate_cases K source s) as [H|[H|(y & Hy & H)]]; rewrite H;
    eexists; (split; [reflexivity|]).
  - repeat split; auto.
  - unfold SplitViewChat.setCurrentPage.
    destruct (SplitViewChat.pdf s); cbn; repeat split; auto.
  - cbn. repeat split; auto.
Qed.

(** X22: after any sequence of adds to an empty store, the bookmarks
    are listed in the order in which their ids were first added. *)
Theorem bookmarks_listed_in_order_first_added :
  forall calls : list (Z * Message),
    BookmarkContext.bookmark_ids (BookmarkContext.addAll calls []) =
      reverse (remove_dups (reverse (map (fun c => id (snd c)) calls))).
Proof.
  intros calls. induction calls as [|c calls IH] using rev_ind; [reflexivity|].
  unfold BookmarkContext.addAll in *. rewrite fold_left_app. cbn [fold_left].
  rewrite map_app, reverse_app. cbn [map reverse app].
  change (reverse [id (snd c)]) with [id (snd c)]. cbn [app remove_dups].
  unfold BookmarkContext.addBookmark.
  change (existsb (BookmarkContext.has_id (id (snd c))) ?st)
    with (BookmarkContext.isBookmarked (id (snd c)) st).
  set (st := fold_left _ calls []) in *.
  assert (Hiff : BookmarkContext.isBookmarked (id (snd c)) st = true <->
                 id (snd c) ∈ reverse (map (fun c0 => id (snd c0)) calls)).
  { rewrite isBookmarked_elem, IH, elem_of_reverse, elem_of_remove_dups. reflexivity. }
  destruct (decide_rel elem_of (id (snd c))
              (reverse (map (fun c0 => id (snd c0)) calls))) as [Hin|Hout].
  - apply Hiff in Hin. rewrite Hin. exact IH.
  - destruct (BookmarkContext.isBookmarked (id (snd c)) st) eqn:Hb.
    + exfalso. apply Hout, Hiff. reflexivity.
    + unfold BookmarkContext.bookmark_ids in *. rewrite map_app, IH. cbn [map].
      now rewrite reverse_cons.
Qed.
